(** * PX4 parameter scraper: a shallow embedding of [px4_scraper.py]

    The development follows [parameter_scraping/px4_scraper.py]: the
    [ParameterMetadata] record, the XML ingestor ([parse_xml_file],
    [_parse_parameter]), the source scanner ([parse_all]), the
    comment/macro extractor ([parse_source_file],
    [_process_parameter_definition]) and the serializer
    ([save_parameters]).

    Conventions of the embedding:
    - a Python [str] is a list of characters, a character being a code
      point below 256;
    - a Python [dict] is an insertion-ordered association list with
      replace-in-place assignment ([dict_set]);
    - a Python [float] is an IEEE-754 binary64 value ([spec_float]);
    - [self.parameters] and the logger are threaded explicitly as a
      [PState]; a caught exception is a value of type [exn]. *)

From Stdlib Require Import List Ascii String ZArith Lia Bool.
From Stdlib Require Import SpecFloat DecimalString.
Import ListNotations.

Set Implicit Arguments.
Set Warnings "-register-all".

Local Open Scope string_scope.
Local Open Scope list_scope.

(** ** Python strings *)

Definition str := list ascii.

Coercion list_ascii_of_string : string >-> list.

(** [a == b] *)
Fixpoint str_eqb (a b : str) : bool :=
  match a, b with
  | [], [] => true
  | x :: a', y :: b' => Ascii.eqb x y && str_eqb a' b'
  | _, _ => false
  end.

(** [str.isspace] on one character, which is also what [\s] matches in a
    [str] pattern: TAB..CR, FS..US, SPACE, NEL and NBSP below 256. *)
Definition isspace (a : ascii) : bool :=
  let n := N_of_ascii a in
  ((9 <=? n) && (n <=? 13) || (28 <=? n) && (n <=? 32)
   || (n =? 133) || (n =? 160))%N.

Definition char_in (chars : str) (a : ascii) : bool :=
  existsb (Ascii.eqb a) chars.

Fixpoint lstrip_by (f : ascii -> bool) (s : str) : str :=
  match s with
  | [] => []
  | a :: s' => if f a then lstrip_by f s' else s
  end.

Definition rstrip_by (f : ascii -> bool) (s : str) : str :=
  rev (lstrip_by f (rev s)).

Definition strip_by (f : ascii -> bool) (s : str) : str :=
  rstrip_by f (lstrip_by f s).

(** [s.strip()] *)
Definition strip (s : str) : str := strip_by isspace s.

(** [s.strip(chars)] *)
Definition strip_chars (chars : str) (s : str) : str :=
  strip_by (char_in chars) s.

Definition newline : ascii := ascii_of_nat 10.

(** [s.split(sep)] for a one-character separator: never empty, and no
    piece holds the separator. *)
Fixpoint split_on (sep : ascii) (s : str) : list str :=
  match s with
  | [] => [[]]
  | a :: s' =>
      if Ascii.eqb a sep then [] :: split_on sep s'
      else match split_on sep s' with
           | h :: t => (a :: h) :: t
           | [] => [[a]]
           end
  end.

(** [s.split('\n')] *)
Definition split_lines (s : str) : list str := split_on newline s.

(** ['\n'.join(lines)] *)
Fixpoint unlines (lines : list str) : str :=
  match lines with
  | [] => []
  | [l] => l
  | l :: ls => l ++ newline :: unlines ls
  end.

Fixpoint starts_with (p s : str) : bool :=
  match p, s with
  | [], _ => true
  | a :: p', b :: s' => Ascii.eqb a b && starts_with p' s'
  | _ :: _, [] => false
  end.

(** [sub in s] *)
Fixpoint contains (sub s : str) : bool :=
  starts_with sub s ||
  match s with
  | [] => false
  | _ :: s' => contains sub s'
  end.

(** [s.endswith(suffix)] *)
Definition ends_with (suffix s : str) : bool :=
  starts_with (rev suffix) (rev s).

(** ** The fragment of [re] the scraper uses

    Every pattern compiled in [__init__] is a sequence of single
    characters, greedy repetitions of a character class, and capture
    groups around such runs.  [rx_match] is the backtracking matcher of
    [re] on that fragment: a repetition first takes as many characters as
    it can and gives them back one at a time when the rest fails. *)

Inductive rx : Type :=
| Chr (cls : ascii -> bool)   (* one character of the class *)
| Star (cls : ascii -> bool)  (* cls*  (greedy) *)
| Open                        (* (  *)
| Close.                      (* )  *)

Definition pattern := list rx.

Definition one_of (c : string) : ascii -> bool := char_in c.
Definition lit (s : string) : pattern :=
  map (fun a => Chr (Ascii.eqb a)) (list_ascii_of_string s).
Definition plus (cls : ascii -> bool) : pattern := [Chr cls; Star cls].

(** One piece of the subject per pattern item. *)
Fixpoint rx_match (p : pattern) (s : str) {struct p} : option (list str) :=
  match p with
  | [] => Some []
  | Chr c :: p' =>
      match s with
      | a :: s' => if c a then option_map (cons [a]) (rx_match p' s') else None
      | [] => None
      end
  | Star c :: p' =>
      (fix star (s : str) : option (list str) :=
         match s with
         | a :: s' =>
             if c a then
               match star s' with
               | Some (w :: ws) => Some ((a :: w) :: ws)
               | _ => option_map (cons []) (rx_match p' s)
               end
             else option_map (cons []) (rx_match p' s)
         | [] => option_map (cons []) (rx_match p' [])
         end) s
  | Open :: p' | Close :: p' => option_map (cons []) (rx_match p' s)
  end.

(** [pattern.search(s)]: the leftmost start at which the pattern matches;
    the result is the text before the match and the pieces. *)
Fixpoint rx_search (p : pattern) (s : str) : option (str * list str) :=
  match rx_match p s with
  | Some ws => Some ([], ws)
  | None =>
      match s with
      | [] => None
      | a :: s' =>
          match rx_search p s' with
          | Some (pre, ws) => Some (a :: pre, ws)
          | None => None
          end
      end
  end.

(** [match.groups()]: the text between each [Open] and its [Close]. *)
Fixpoint rx_groups (p : pattern) (ws : list str) (cur : option str)
  : list str :=
  match p, ws with
  | Open :: p', _ :: ws' => rx_groups p' ws' (Some [])
  | Close :: p', _ :: ws' =>
      match cur with
      | Some g => g :: rx_groups p' ws' None
      | None => rx_groups p' ws' None
      end
  | _ :: p', w :: ws' =>
      rx_groups p' ws' (option_map (fun g => g ++ w) cur)
  | _, _ => []
  end.

Definition search_groups (p : pattern) (s : str) : option (list str) :=
  match rx_search p s with
  | Some (_, ws) => Some (rx_groups p ws None)
  | None => None
  end.

(** Character classes of the patterns.  Of the six patterns [__init__]
    compiles, [parse_source_file] and [_process_parameter_definition] use
    three: [re_comment_start], [re_comment_tag] and [re_param_define]. *)
Definition is_upper (a : ascii) : bool :=
  let n := N_of_ascii a in ((65 <=? n) && (n <=? 90))%N.
Definition is_lower (a : ascii) : bool :=
  let n := N_of_ascii a in ((97 <=? n) && (n <=? 122))%N.
Definition is_digit (a : ascii) : bool :=
  let n := N_of_ascii a in ((48 <=? n) && (n <=? 57))%N.
Definition underscore : ascii := "_"%char.

(** [[A-Z_]] and [[A-Z0-9_]] *)
Definition macro_head (a : ascii) : bool := is_upper a || Ascii.eqb a underscore.
Definition macro_tail (a : ascii) : bool :=
  is_upper a || is_digit a || Ascii.eqb a underscore.
(** [[a-zA-Z]] and [[a-zA-Z0-9_]] *)
Definition tag_head (a : ascii) : bool := is_lower a || is_upper a.
Definition tag_tail (a : ascii) : bool :=
  is_lower a || is_upper a || is_digit a || Ascii.eqb a underscore.
(** [[^ ,\)]] *)
Definition default_char (a : ascii) : bool := negb (char_in " ,)" a).
(** [.] *)
Definition any_char (a : ascii) : bool := negb (Ascii.eqb a newline).

(** [re_comment_start]: the three characters slash, star, star. *)
Definition re_comment_start : pattern := lit "/**".

(** [re_comment_tag]: an at-sign; group 1 is a letter followed by any
    number of letters, digits and underscores; then any number of blanks;
    group 2 is the rest of the line. *)
Definition re_comment_tag : pattern :=
  lit "@" ++ [Open; Chr tag_head; Star tag_tail; Close; Star isspace;
              Open; Star any_char; Close].

(** [re_param_define]: the text PARAM_DEFINE_; group 1 is one of [A-Z_]
    followed by any number of [A-Z0-9_]; blanks; an opening parenthesis;
    group 2 of the same shape; blanks; a comma; blanks; group 3 is one or
    more characters other than space, comma and closing parenthesis;
    blanks; a closing parenthesis; blanks; a semicolon. *)
Definition re_param_define : pattern :=
  lit "PARAM_DEFINE_"
  ++ [Open; Chr macro_head; Star macro_tail; Close; Star isspace;
      Chr (one_of "(");
      Open; Chr macro_head; Star macro_tail; Close; Star isspace;
      Chr (one_of ",");
      Star isspace; Open] ++ plus default_char
  ++ [Close; Star isspace; Chr (one_of ")"); Star isspace; Chr (one_of ";")].

(** ** Exceptions *)

Inductive exn : Type :=
| ValueError (what : str)   (* [float('abc')], [int('1.5')] *)
| TypeError (what : str)    (* [float(None)] *)
| KeyError (key : str)      (* [value.attrib['code']] *)
| OSError (what : str)      (* [open], [f.read()], also a decoding error *)
| ParseError (what : str).  (* [ET.parse] *)

Inductive result (A : Type) : Type :=
| Ok (a : A)
| Raise (e : exn).

Arguments Ok {A} a.
Arguments Raise {A} e.

Definition bind {A B : Type} (r : result A) (k : A -> result B) : result B :=
  match r with
  | Ok a => k a
  | Raise e => Raise e
  end.

Notation "x <- r ;; k" := (bind r (fun x => k))
  (at level 61, r at next level, right associativity).

(** ** [int(s)] and [float(s)] on strings *)

(** After a digit: any number of further digits, each optionally preceded
    by one underscore.  Returns the digits read and what is left. *)
Fixpoint digits_tail (s : str) : str * str :=
  match s with
  | a :: s' =>
      if is_digit a then let '(ds, r) := digits_tail s' in (a :: ds, r)
      else if Ascii.eqb a underscore then
        match s' with
        | b :: s'' =>
            if is_digit b then let '(ds, r) := digits_tail s'' in (b :: ds, r)
            else ([], s)
        | [] => ([], s)
        end
      else ([], s)
  | [] => ([], [])
  end.

(** The grammar's [digitpart]; no digit read when [s] does not start with
    one. *)
Definition digitpart (s : str) : str * str :=
  match s with
  | a :: s' =>
      if is_digit a then let '(ds, r) := digits_tail s' in (a :: ds, r)
      else ([], s)
  | [] => ([], [])
  end.

Definition digit_value (a : ascii) : Z := Z.of_N (N_of_ascii a) - 48.

Definition decimal_value (ds : str) : Z :=
  fold_left (fun acc a => 10 * acc + digit_value a)%Z ds 0%Z.

(** An optional sign: [true] for minus. *)
Definition read_sign (s : str) : bool * str :=
  match s with
  | a :: s' =>
      if Ascii.eqb a "-"%char then (true, s')
      else if Ascii.eqb a "+"%char then (false, s')
      else (false, s)
  | [] => (false, [])
  end.

(** [int(s)] in base 10. *)
Definition py_int (s : str) : result Z :=
  let '(neg, r) := read_sign (strip s) in
  match digitpart r with
  | ((_ :: _) as ds, []) =>
      Ok (if neg then - decimal_value ds else decimal_value ds)%Z
  | _ => Raise (ValueError s)
  end.

Definition float := spec_float.

(** The binary64 value nearest to [m * 10^e] (ties to even), for [0 <= m]:
    [float] rounds correctly.  A negative exponent is a division; the
    quotient keeps more bits than the format and a sticky bit. *)
Definition float_of_decimal (neg : bool) (m e : Z) : float :=
  let sign z := if neg then Z.opp z else z in
  if (m =? 0)%Z then S754_zero neg
  else if (0 <=? e)%Z then
    binary_normalize 53 1024 (sign (m * 10 ^ e)%Z) 0 neg
  else
    let d := (10 ^ (- e))%Z in
    let sh := (56 + Z.log2_up d)%Z in
    let n := (m * 2 ^ sh)%Z in
    let q := (n / d)%Z in
    let sticky := if (n mod d =? 0)%Z then 0%Z else 1%Z in
    binary_normalize 53 1024 (sign (2 * q + sticky)%Z) (- sh - 1) neg.

Definition lower_char (a : ascii) : ascii :=
  if is_upper a then ascii_of_N (N_of_ascii a + 32) else a.

Definition lower (s : str) : str := map lower_char s.

(** [e] or [E], an optional sign and a [digitpart]. *)
Definition read_exponent (s : str) : option (Z * str) :=
  match s with
  | a :: s' =>
      if Ascii.eqb (lower_char a) "e"%char then
        let '(neg, r) := read_sign s' in
        match digitpart r with
        | ((_ :: _) as ds, r') =>
            Some ((if neg then - decimal_value ds else decimal_value ds)%Z, r')
        | _ => None
        end
      else Some (0%Z, s)
  | [] => Some (0%Z, [])
  end.

(** [float(s)]: blanks around, a sign, then [inf], [infinity], [nan] in
    any case, or digits with an optional point and exponent. *)
Definition py_float (s : str) : result float :=
  let '(neg, r) := read_sign (strip s) in
  let l := lower r in
  if str_eqb l "inf" || str_eqb l "infinity" then Ok (S754_infinity neg)
  else if str_eqb l "nan" then Ok S754_nan
  else
    let '(ip, r1) := digitpart r in
    let '(fp, r2) :=
      match r1 with
      | a :: r1' => if Ascii.eqb a "."%char then digitpart r1' else ([], r1)
      | [] => ([], [])
      end in
    match ip ++ fp, read_exponent r2 with
    | _ :: _, Some (ex, []) =>
        Ok (float_of_decimal neg (decimal_value (ip ++ fp))
              (ex - Z.of_nat (List.length fp)))
    | _, _ => Raise (ValueError s)
    end.

(** ** Python dictionaries

    Keys keep the position of their first insertion; assigning to a key
    that is present replaces its value in place. *)

Section PyDict.
Variable V : Type.

Definition pydict := list (str * V).

(** [d.get(k)] *)
Fixpoint dict_get (k : str) (d : pydict) : option V :=
  match d with
  | [] => None
  | (k', v) :: d' => if str_eqb k k' then Some v else dict_get k d'
  end.

(** [k in d] *)
Definition dict_mem (k : str) (d : pydict) : bool :=
  match dict_get k d with Some _ => true | None => false end.

(** [d.get(k, dflt)] *)
Definition dict_get_default (k : str) (dflt : V) (d : pydict) : V :=
  match dict_get k d with Some v => v | None => dflt end.

(** [d[k] = v] *)
Fixpoint dict_set (k : str) (v : V) (d : pydict) : pydict :=
  match d with
  | [] => [(k, v)]
  | (k', v') :: d' =>
      if str_eqb k k' then (k', v) :: d' else (k', v') :: dict_set k v d'
  end.

Definition dict_keys (d : pydict) : list str := map fst d.
End PyDict.

Arguments dict_get {V} k d.
Arguments dict_mem {V} k d.
Arguments dict_get_default {V} k dflt d.
Arguments dict_set {V} k v d.
Arguments dict_keys {V} d.

(** ** The data model *)

(** [ParameterMetadata].  The two descriptions and the enum texts are
    optional because the text of an empty XML element is [None]. *)
Record ParameterMetadata : Type := {
  name : str;
  type : str;
  default : str;
  short_desc : option str;
  long_desc : option str;
  min_val : option float;
  max_val : option float;
  unit : option str;
  decimal : option Z;
  group : str;
  values : pydict (option str);
  volatile : bool;
  category : str;
  source_file : option str;
  line_number : option Z
}.

(** The dataclass constructor with its defaults, as both call sites use
    it. *)
Definition new_ParameterMetadata (name type default : str)
    (short_desc long_desc : option str) (group : str) (volatile : bool)
    (source_file : option str) (line_number : option Z) : ParameterMetadata :=
  {| name := name; type := type; default := default;
     short_desc := short_desc; long_desc := long_desc;
     min_val := None; max_val := None; unit := None; decimal := None;
     group := group; values := []; volatile := volatile;
     category := "Standard";
     source_file := source_file; line_number := line_number |}.

Definition set_min_val (p : ParameterMetadata) (v : float) :=
  {| name := name p; type := type p; default := default p;
     short_desc := short_desc p; long_desc := long_desc p;
     min_val := Some v; max_val := max_val p; unit := unit p;
     decimal := decimal p; group := group p; values := values p;
     volatile := volatile p; category := category p;
     source_file := source_file p; line_number := line_number p |}.

Definition set_max_val (p : ParameterMetadata) (v : float) :=
  {| name := name p; type := type p; default := default p;
     short_desc := short_desc p; long_desc := long_desc p;
     min_val := min_val p; max_val := Some v; unit := unit p;
     decimal := decimal p; group := group p; values := values p;
     volatile := volatile p; category := category p;
     source_file := source_file p; line_number := line_number p |}.

Definition set_unit (p : ParameterMetadata) (v : option str) :=
  {| name := name p; type := type p; default := default p;
     short_desc := short_desc p; long_desc := long_desc p;
     min_val := min_val p; max_val := max_val p; unit := v;
     decimal := decimal p; group := group p; values := values p;
     volatile := volatile p; category := category p;
     source_file := source_file p; line_number := line_number p |}.

Definition set_decimal (p : ParameterMetadata) (v : Z) :=
  {| name := name p; type := type p; default := default p;
     short_desc := short_desc p; long_desc := long_desc p;
     min_val := min_val p; max_val := max_val p; unit := unit p;
     decimal := Some v; group := group p; values := values p;
     volatile := volatile p; category := category p;
     source_file := source_file p; line_number := line_number p |}.

Definition set_values (p : ParameterMetadata) (v : pydict (option str)) :=
  {| name := name p; type := type p; default := default p;
     short_desc := short_desc p; long_desc := long_desc p;
     min_val := min_val p; max_val := max_val p; unit := unit p;
     decimal := decimal p; group := group p; values := v;
     volatile := volatile p; category := category p;
     source_file := source_file p; line_number := line_number p |}.

Definition set_volatile (p : ParameterMetadata) (v : bool) :=
  {| name := name p; type := type p; default := default p;
     short_desc := short_desc p; long_desc := long_desc p;
     min_val := min_val p; max_val := max_val p; unit := unit p;
     decimal := decimal p; group := group p; values := values p;
     volatile := v; category := category p;
     source_file := source_file p; line_number := line_number p |}.

Definition set_category (p : ParameterMetadata) (v : str) :=
  {| name := name p; type := type p; default := default p;
     short_desc := short_desc p; long_desc := long_desc p;
     min_val := min_val p; max_val := max_val p; unit := unit p;
     decimal := decimal p; group := group p; values := values p;
     volatile := volatile p; category := v;
     source_file := source_file p; line_number := line_number p |}.

(** ** The parser object: [self.parameters] and what [self.logger] got *)

(** [LogError ctx e] is [logger.error(f"{ctx}: {str(e)}")]. *)
Inductive log_record : Type :=
| LogInfo (msg : str)
| LogDebug (msg : str)
| LogError (context : str) (e : exn).

Record PState : Type := {
  parameters : pydict ParameterMetadata;
  log : list log_record
}.

Definition logged (r : log_record) (st : PState) : PState :=
  {| parameters := parameters st; log := log st ++ [r] |}.

Definition with_parameter (p : ParameterMetadata) (st : PState) : PState :=
  {| parameters := dict_set (name p) p (parameters st); log := log st |}.

(** ** The comment/macro extractor *)

(** The three accumulators of the loop over the comment lines. *)
Record CommentFields : Type := {
  cf_short_desc : str;
  cf_long_desc : str;
  cf_metadata : pydict str
}.

Definition comment_line (acc : CommentFields) (line : str) : CommentFields :=
  let line := strip_chars "/* " line in
  match search_groups re_comment_tag line with
  | Some gs =>
      {| cf_short_desc := cf_short_desc acc;
         cf_long_desc := cf_long_desc acc;
         cf_metadata := dict_set (nth 0 gs []) (nth 1 gs []) (cf_metadata acc) |}
  | None =>
      match cf_short_desc acc with
      | [] =>
          {| cf_short_desc := line;
             cf_long_desc := cf_long_desc acc;
             cf_metadata := cf_metadata acc |}
      | _ :: _ =>
          {| cf_short_desc := cf_short_desc acc;
             cf_long_desc := cf_long_desc acc ++ line ++ " ";
             cf_metadata := cf_metadata acc |}
      end
  end.

Definition parse_comment (comment_lines : list str) : CommentFields :=
  fold_left comment_line comment_lines
    {| cf_short_desc := []; cf_long_desc := []; cf_metadata := [] |}.

(** [if tag in metadata: param = update(param, conv(metadata[tag]))] *)
Definition optional_field {A : Type} (tag : str) (metadata : pydict str)
    (conv : str -> result A)
    (update : ParameterMetadata -> A -> ParameterMetadata)
    (param : ParameterMetadata) : result ParameterMetadata :=
  match dict_get tag metadata with
  | Some text => v <- conv text ;; Ok (update param v)
  | None => Ok param
  end.

(** The body of the [try] of [_process_parameter_definition], up to the
    assignment to [self.parameters]. *)
Definition build_parameter (param_type param_name param_default : str)
    (comment_lines : list str) (source_file : str) (line_number : Z)
  : result ParameterMetadata :=
  let cf := parse_comment comment_lines in
  let metadata := cf_metadata cf in
  let param :=
    new_ParameterMetadata param_name param_type param_default
      (Some (strip (cf_short_desc cf))) (Some (strip (cf_long_desc cf)))
      (dict_get_default (V:=str) "group" "Uncategorized" metadata) false
      (Some source_file) (Some line_number) in
  param <- optional_field "min" metadata py_float set_min_val param ;;
  param <- optional_field "max" metadata py_float set_max_val param ;;
  param <- optional_field "unit" metadata (fun t => Ok (Some t)) set_unit param ;;
  param <- optional_field "decimal" metadata py_int set_decimal param ;;
  param <- optional_field "volatile" metadata (fun _ => Ok true)
             set_volatile param ;;
  optional_field "category" metadata (fun t => Ok t) set_category param.

Definition _process_parameter_definition
    (param_type param_name param_default : str) (comment_lines : list str)
    (source_file : str) (line_number : Z) (st : PState) : PState :=
  match build_parameter param_type param_name param_default comment_lines
          source_file line_number with
  | Ok param =>
      logged (LogDebug ("Parsed parameter from source: " ++ param_name))
        {| parameters := dict_set param_name param (parameters st);
           log := log st |}
  | Raise e =>
      logged (LogError ("Error processing parameter " ++ param_name) e) st
  end.

(** The local variables of the loop of [parse_source_file]. *)
Record Scanner : Type := {
  current_comment : list str;
  in_comment : bool;
  line_count : Z   (* the local [line_number] *)
}.

Definition is_match (p : pattern) (s : str) : bool :=
  match rx_search p s with Some _ => true | None => false end.

(** One iteration of [for line in content.split('\n')]. *)
Definition scan_line (source_file : str) (acc : Scanner * PState)
    (raw : str) : Scanner * PState :=
  let '(sc, st) := acc in
  let n := (line_count sc + 1)%Z in
  let line := strip raw in
  if is_match re_comment_start line then
    ({| current_comment := []; in_comment := true; line_count := n |}, st)
  else if in_comment sc then
    if contains "*/" line then
      ({| current_comment := current_comment sc ++ [line];
          in_comment := false; line_count := n |}, st)
    else
      ({| current_comment := current_comment sc ++ [line];
          in_comment := in_comment sc; line_count := n |}, st)
  else
    match search_groups re_param_define line with
    | Some gs =>
        ({| current_comment := []; in_comment := in_comment sc;
            line_count := n |},
         _process_parameter_definition (nth 0 gs []) (nth 1 gs [])
           (nth 2 gs []) (current_comment sc) source_file n st)
    | None =>
        ({| current_comment := current_comment sc;
            in_comment := in_comment sc; line_count := n |}, st)
    end.

Definition scan_start : Scanner :=
  {| current_comment := []; in_comment := false; line_count := 0 |}.

Definition scan_lines (source_file : str) (lines : list str)
    (acc : Scanner * PState) : Scanner * PState :=
  fold_left (scan_line source_file) lines acc.

(** A file the scanner meets: [str(src_path)], the path relative to the
    repository root, and what [open] and [f.read()] give. *)
Record SourceFile : Type := {
  src_path : str;
  relative_path : str;
  content : result str
}.

Definition parse_source_file (f : SourceFile) (st : PState) : PState :=
  match content f with
  | Ok text =>
      snd (scan_lines (relative_path f) (split_lines text) (scan_start, st))
  | Raise e =>
      logged (LogError ("Error parsing source file " ++ src_path f) e) st
  end.

(** ** The XML ingestor *)

(** An [xml.etree.ElementTree.Element]. *)
Inductive Element : Type :=
| mkElement (tag : str) (attrib : pydict str) (text : option str)
    (children : list Element).

Definition tag (e : Element) : str := let '(mkElement t _ _ _) := e in t.
Definition attrib (e : Element) : pydict str :=
  let '(mkElement _ a _ _) := e in a.
Definition text (e : Element) : option str :=
  let '(mkElement _ _ t _) := e in t.
Definition children (e : Element) : list Element :=
  let '(mkElement _ _ _ c) := e in c.

(** [e.find(path)] and [e.findall(path)] for a plain tag name: among the
    direct children. *)
Definition elem_find (path : str) (e : Element) : option Element :=
  find (fun c => str_eqb (tag c) path) (children e).

Definition elem_findall (path : str) (e : Element) : list Element :=
  filter (fun c => str_eqb (tag c) path) (children e).

(** [bool(e)]: an element is true when it has sub-elements
    ([Element.__len__]). *)
Definition elem_bool (e : Element) : bool :=
  match children e with [] => false | _ :: _ => true end.

(** [float(x)] and [int(x)] where [x] is an element's text. *)
Definition float_of_text (t : option str) : result float :=
  match t with
  | Some s => py_float s
  | None => Raise (TypeError "float() argument must be a string or a real number")
  end.

Definition int_of_text (t : option str) : result Z :=
  match t with
  | Some s => py_int s
  | None => Raise (TypeError "int() argument must be a string or a real number")
  end.

(** [if child := param_elem.find(path): metadata = update(metadata,
    conv(child.text))] *)
Definition xml_optional_field {A : Type} (path : str) (param_elem : Element)
    (conv : option str -> result A)
    (update : ParameterMetadata -> A -> ParameterMetadata)
    (metadata : ParameterMetadata) : result ParameterMetadata :=
  match elem_find path param_elem with
  | Some child =>
      if elem_bool child then
        v <- conv (text child) ;; Ok (update metadata v)
      else Ok metadata
  | None => Ok metadata
  end.

(** The dict comprehension over the [value] elements. *)
Fixpoint enum_values (vs : list Element) (acc : pydict (option str))
  : result (pydict (option str)) :=
  match vs with
  | [] => Ok acc
  | v :: vs' =>
      match dict_get "code" (attrib v) with
      | Some code => enum_values vs' (dict_set code (text v) acc)
      | None => Raise (KeyError "code")
      end
  end.

(** [find(path).text if find(path) is not None else ''] *)
Definition child_text (path : str) (e : Element) : option str :=
  match elem_find path e with
  | Some c => text c
  | None => Some []
  end.

(** The body of the [try] of [_parse_parameter]. *)
Definition parse_parameter_body (param_elem : Element) (group : str)
  : result (option ParameterMetadata) :=
  match dict_get "name" (attrib param_elem) with
  | None | Some [] => Ok None
  | Some name =>
      let metadata :=
        new_ParameterMetadata name
          (dict_get_default (V:=str) "type" "" (attrib param_elem))
          (dict_get_default (V:=str) "default" "" (attrib param_elem))
          (child_text "short_desc" param_elem)
          (child_text "long_desc" param_elem)
          group
          (match dict_get "volatile" (attrib param_elem) with
           | Some v => str_eqb v "true"
           | None => false
           end)
          None None in
      metadata <- xml_optional_field "min" param_elem float_of_text
                    set_min_val metadata ;;
      metadata <- xml_optional_field "max" param_elem float_of_text
                    set_max_val metadata ;;
      metadata <- xml_optional_field "unit" param_elem (fun t => Ok t)
                    set_unit metadata ;;
      metadata <- xml_optional_field "decimal" param_elem int_of_text
                    set_decimal metadata ;;
      metadata <-
        match elem_find "values" param_elem with
        | Some values_elem =>
            vs <- enum_values (elem_findall "value" values_elem) [] ;;
            Ok (set_values metadata vs)
        | None => Ok metadata
        end ;;
      Ok (Some metadata)
  end.

Definition _parse_parameter (param_elem : Element) (group : str)
    (st : PState) : PState * option ParameterMetadata :=
  match parse_parameter_body param_elem group with
  | Ok r => (st, r)
  | Raise e =>
      let name :=
        match dict_get "name" (attrib param_elem) with
        | Some (_ :: _ as n) => n
        | _ => "unknown" : str
        end in
      (logged (LogError ("Error parsing parameter " ++ name) e) st, None)
  end.

(** The inner loop of [parse_xml_file] over one [group] element. *)
Definition parse_xml_group (st : PState) (group : Element) : PState :=
  let group_name :=
    dict_get_default (V:=str) "name" "Uncategorized" (attrib group) in
  fold_left
    (fun st param =>
       match _parse_parameter param group_name st with
       | (st1, Some metadata) =>
           logged (LogDebug ("Parsed parameter from XML: " ++ name metadata))
             {| parameters :=
                  dict_set (name metadata) metadata (parameters st1);
                log := log st1 |}
       | (st1, None) => st1
       end)
    (elem_findall "parameter" group) st.

(** The body of the [try] of [parse_xml_file]: the state it leaves and the
    exception it raised, if any.  [doc] is what [ET.parse(xml_path)] and
    [getroot()] give. *)
Definition parse_xml_try (doc : result Element) (st : PState)
  : PState * option exn :=
  match doc with
  | Raise e => (st, Some e)
  | Ok root => (fold_left parse_xml_group (elem_findall "group" root) st, None)
  end.

Definition parse_xml_file (xml_path : str) (doc : result Element)
    (st : PState) : PState :=
  match parse_xml_try doc st with
  | (st', Some e) => logged (LogError ("Error parsing " ++ xml_path) e) st'
  | (st', None) => st'
  end.

(** ** The serializer *)

(** The value handed to [json.dump], which is also what [json.load] gives
    back for the document written. *)
Inductive json : Type :=
| JNull
| JBool (b : bool)
| JInt (z : Z)
| JFloat (f : float)
| JStr (s : str)
| JObject (members : pydict json).

Definition json_opt {A : Type} (f : A -> json) (o : option A) : json :=
  match o with Some a => f a | None => JNull end.

(** The inner dict literal of [params_dict]. *)
Definition param_dict (p : ParameterMetadata) : json :=
  JObject
    [ ("name" : str, JStr (name p));
      ("type" : str, JStr (type p));
      ("default" : str, JStr (default p));
      ("short_desc" : str, json_opt JStr (short_desc p));
      ("long_desc" : str, json_opt JStr (long_desc p));
      ("min_val" : str, json_opt JFloat (min_val p));
      ("max_val" : str, json_opt JFloat (max_val p));
      ("unit" : str, json_opt JStr (unit p));
      ("decimal" : str, json_opt JInt (decimal p));
      ("group" : str, JStr (group p));
      ("values" : str,
        JObject (map (fun kv => (fst kv, json_opt JStr (snd kv))) (values p)));
      ("volatile" : str, JBool (volatile p));
      ("category" : str, JStr (category p));
      ("source_file" : str, json_opt JStr (source_file p));
      ("line_number" : str, json_opt JInt (line_number p)) ].

(** [{name: {...} for name, p in self.parameters.items()}] *)
Definition params_dict (ps : pydict ParameterMetadata) : json :=
  JObject
    (fold_left (fun acc kv => dict_set (fst kv) (param_dict (snd kv)) acc)
       ps []).

Definition str_of_nat (n : nat) : str :=
  list_ascii_of_string (DecimalString.NilZero.string_of_uint (Nat.to_uint n)).

(** [save_parameters]: [write_error] is what opening and writing the
    output file raised, if anything.  The second component is the document
    on disk afterwards, when the write went through. *)
Definition save_parameters (output_file : str) (write_error : option exn)
    (st : PState) : PState * option json :=
  let doc := params_dict (parameters st) in
  match write_error with
  | None =>
      (logged
         (LogInfo ("Successfully saved "
                   ++ str_of_nat (List.length (parameters st))
                   ++ " parameters to " ++ output_file)) st,
       Some doc)
  | Some e =>
      (logged (LogError ("Error saving parameters to " ++ output_file) e) st,
       None)
  end.

(** ** The pipeline *)

(** What [parse_all] reads from the file system. *)
Record Repository : Type := {
  repo_path : str;
  (** [None] when [parameters_injected.xml] does not exist, else what
      parsing it gives *)
  injected : option (result Element);
  (** every path below [repo_path], in the order [rglob] walks them *)
  tree : list SourceFile;
  output_file : str;
  write_error : option exn
}.

Definition source_extensions : list str := [".c" : str; ".cpp" : str;
                                            ".h" : str; ".hpp" : str].

(** [self.repo_path.rglob(f"*{ext}")] *)
Definition rglob (ext : str) (repo : Repository) : list SourceFile :=
  filter (fun f => ends_with ext (src_path f)) (tree repo).

Definition injected_path (repo : Repository) : str :=
  repo_path repo ++ "/src/lib/parameters/parameters_injected.xml".

(** The first stage of [parse_all]. *)
Definition ingest_xml (repo : Repository) (st : PState) : PState :=
  match injected repo with
  | Some doc =>
      parse_xml_file (injected_path repo) doc
        (logged (LogInfo ("Parsing injected parameters from "
                          ++ injected_path repo)) st)
  | None => st
  end.

(** The two nested [for] loops of [parse_all]. *)
Definition scan_sources (repo : Repository) (st : PState) : PState :=
  fold_left
    (fun st ext =>
       fold_left
         (fun st src_file =>
            if negb (contains "build" (src_path src_file))
            then parse_source_file src_file st
            else st)
         (rglob ext repo) st)
    source_extensions st.

Definition parse_all (repo : Repository) (st : PState)
  : PState * option json :=
  let st := logged (LogInfo "Starting parameter parsing") st in
  let st := ingest_xml repo st in
  let st := logged (LogInfo "Scanning source files for parameters") st in
  let st := scan_sources repo st in
  save_parameters (output_file repo) (write_error repo) st.

(** The parser object after [__init__]. *)
Definition new_parser (output_dir : str) : PState :=
  {| parameters := [];
     log := [LogInfo ("Output directory set to: " ++ output_dir)] |}.

(** ** Notions the statements below use *)

(** A dictionary proper: no key twice. *)
Definition dict_wf {V : Type} (d : pydict V) : Prop := NoDup (dict_keys d).

(** A sequence of assignments [d[k] = v]. *)
Definition dict_update {V : Type} (kvs : list (str * V)) (d : pydict V)
  : pydict V :=
  fold_left (fun acc kv => dict_set (fst kv) (snd kv) acc) kvs d.

(** The segments of a path. *)
Definition path_segments (path : str) : list str := split_on "/"%char path.

Definition has_segment (seg path : str) : bool :=
  existsb (str_eqb seg) (path_segments path).

(** The files [parse_all] hands to [parse_source_file], in order. *)
Definition scanned_files (repo : Repository) : list SourceFile :=
  flat_map
    (fun ext =>
       filter (fun f => negb (contains "build" (src_path f))) (rglob ext repo))
    source_extensions.

(** The shape [re_param_define] looks for, spelled out on the text. *)
Definition blanks (w : str) : Prop := forallb isspace w = true.

Definition macro_identifier (s : str) : Prop :=
  match s with
  | a :: t => macro_head a = true /\ forallb macro_tail t = true
  | [] => False
  end.

Definition default_token (s : str) : Prop :=
  s <> [] /\ forallb default_char s = true.

Definition macro_text (line ty name dflt : str) : Prop :=
  exists pre w1 w2 w3 w4 w5 post : str,
    line = pre ++ "PARAM_DEFINE_" ++ ty ++ w1 ++ "(" ++ name ++ w2 ++ ","
           ++ w3 ++ dflt ++ w4 ++ ")" ++ w5 ++ ";" ++ post
    /\ blanks w1 /\ blanks w2 /\ blanks w3 /\ blanks w4 /\ blanks w5
    /\ macro_identifier ty /\ macro_identifier name /\ default_token dflt.

(** Parentheses that close in order. *)
Fixpoint paren_depth (s : str) (d : nat) : option nat :=
  match s with
  | [] => Some d
  | a :: s' =>
      if Ascii.eqb a "("%char then paren_depth s' (S d)
      else if Ascii.eqb a ")"%char then
        match d with
        | O => None
        | S d' => paren_depth s' d'
        end
      else paren_depth s' d
  end.

Definition balanced (s : str) : bool :=
  match paren_depth s 0 with Some O => true | _ => false end.

(** A default literal as it is written: it begins and ends with a
    character that is not a blank. *)
Definition trimmed (s : str) : Prop :=
  (exists a t, s = a :: t /\ isspace a = false)
  /\ (exists t z, s = t ++ [z] /\ isspace z = false).

(** The macro invocation [PARAM_DEFINE_<ty>(<name>, <dflt>);] on a line of
    its own. *)
Definition macro_line (ty name dflt : str) : str :=
  "PARAM_DEFINE_" ++ ty ++ "(" ++ name ++ ", " ++ dflt ++ ");".

(** *** Reading the written document back

    What [json.load] followed by a field-by-field reconstruction gives:
    every field of [ParameterMetadata] is read under its own key, [null]
    is [None]. *)

Definition obind {A B : Type} (o : option A) (k : A -> option B) : option B :=
  match o with Some a => k a | None => None end.

Notation "x <-? o ;; k" := (obind o (fun x => k))
  (at level 61, o at next level, right associativity).

Definition as_str (j : json) : option str :=
  match j with JStr s => Some s | _ => None end.
Definition as_int (j : json) : option Z :=
  match j with JInt z => Some z | _ => None end.
Definition as_float (j : json) : option float :=
  match j with JFloat f => Some f | _ => None end.
Definition as_bool (j : json) : option bool :=
  match j with JBool b => Some b | _ => None end.
Definition as_object (j : json) : option (pydict json) :=
  match j with JObject m => Some m | _ => None end.
Definition nullable {A : Type} (f : json -> option A) (j : json)
  : option (option A) :=
  match j with JNull => Some None | _ => option_map Some (f j) end.

Fixpoint map_members {A : Type} (f : json -> option A) (m : pydict json)
  : option (pydict A) :=
  match m with
  | [] => Some []
  | (k, j) :: m' =>
      a <-? f j ;; r <-? map_members f m' ;; Some ((k, a) :: r)
  end.

Definition field {A : Type} (key : str) (f : json -> option A)
    (m : pydict json) : option A :=
  j <-? dict_get key m ;; f j.

Definition param_of_json (j : json) : option ParameterMetadata :=
  m <-? as_object j ;;
  name <-? field "name" as_str m ;;
  type <-? field "type" as_str m ;;
  default <-? field "default" as_str m ;;
  short_desc <-? field "short_desc" (nullable as_str) m ;;
  long_desc <-? field "long_desc" (nullable as_str) m ;;
  min_val <-? field "min_val" (nullable as_float) m ;;
  max_val <-? field "max_val" (nullable as_float) m ;;
  unit <-? field "unit" (nullable as_str) m ;;
  decimal <-? field "decimal" (nullable as_int) m ;;
  group <-? field "group" as_str m ;;
  values <-? field "values"
               (fun j => vm <-? as_object j ;;
                         map_members (nullable as_str) vm) m ;;
  volatile <-? field "volatile" as_bool m ;;
  category <-? field "category" as_str m ;;
  source_file <-? field "source_file" (nullable as_str) m ;;
  line_number <-? field "line_number" (nullable as_int) m ;;
  Some {| name := name; type := type; default := default;
          short_desc := short_desc; long_desc := long_desc;
          min_val := min_val; max_val := max_val; unit := unit;
          decimal := decimal; group := group; values := values;
          volatile := volatile; category := category;
          source_file := source_file; line_number := line_number |}.

Definition parameters_of_json (doc : json)
  : option (pydict ParameterMetadata) :=
  m <-? as_object doc ;; map_members param_of_json m.

(** ** Further notions and the running examples *)

(** The source text of the end-to-end example: a comment block and the
    macro line right after it. *)
Definition example_source : str :=
  unlines [ "/**" : str; "* Short desc" : str; "* @min 0" : str;
            "* @max 10" : str; "* @group Test" : str; "*/" : str;
            "PARAM_DEFINE_FLOAT(MY_PARAM, 1.5);" : str ].

(** 0.0 and 10.0 in binary64: 10 = 5629499534213120 * 2^-49. *)
Definition float_0 : float := S754_zero false.
Definition float_10 : float := S754_finite false 5629499534213120 (-49).

(** The tags the comment buffer gives hold a [min], [max] or [decimal]
    whose text [float] or [int] rejects.  The text of a tag is the one
    [metadata] holds for it, that of its last line in the buffer. *)
Definition numeric_tag_unparsable (metadata : pydict str) : Prop :=
  (exists v e, dict_get "min" metadata = Some v /\ py_float v = Raise e)
  \/ (exists v e, dict_get "max" metadata = Some v /\ py_float v = Raise e)
  \/ (exists v e, dict_get "decimal" metadata = Some v /\ py_int v = Raise e).

(** An element with a text and nothing below it, as [<min>0</min>]. *)
Definition leaf (t : str) (txt : str) : Element := mkElement t [] (Some txt) [].

(** A parameter element with every optional child, and a document around
    it. *)
Definition example_parameter : Element :=
  mkElement "parameter"
    [("name" : str, "SPD" : str); ("type" : str, "FLOAT" : str);
     ("default" : str, "1.0" : str)]
    None
    [ leaf "short_desc" "Speed"; leaf "min" "0"; leaf "max" "10";
      leaf "unit" "m/s"; leaf "decimal" "2" ].

Definition example_document : Element :=
  mkElement "parameters" [] None
    [ mkElement "group" [("name" : str, "Nav" : str)] None
        [ example_parameter ] ].

(** Assignments of entries that carry a source file. *)
Definition from_source (kvs : list (str * ParameterMetadata)) : Prop :=
  Forall (fun kv => source_file (snd kv) <> None) kvs.

(** What the source files alone define: the scan run on an empty mapping. *)
Definition source_only (repo : Repository) : pydict ParameterMetadata :=
  parameters (scan_sources repo {| parameters := []; log := [] |}).

(** The state of [parse_all] after the ingestor and the first [n] files of
    the scan. *)
Definition pipeline_point (repo : Repository) (st : PState) (n : nat)
  : PState :=
  fold_left (fun st f => parse_source_file f st)
    (firstn n (scanned_files repo))
    (logged (LogInfo "Scanning source files for parameters")
       (ingest_xml repo (logged (LogInfo "Starting parameter parsing") st))).

(** A repository whose XML document and whose one source file both
    define SPD. *)
Definition xml_speed : Element :=
  mkElement "parameters" [] None
    [ mkElement "group" [("name" : str, "Nav" : str)] None
        [ mkElement "parameter"
            [("name" : str, "SPD" : str); ("type" : str, "FLOAT" : str);
             ("default" : str, "9.0" : str)] None
            [ leaf "short_desc" "Speed from XML" ] ] ].

Definition repo_speed : Repository :=
  {| repo_path := "/px4";
     injected := Some (Ok xml_speed);
     tree := [ {| src_path := "/px4/src/nav/params.c";
                  relative_path := "src/nav/params.c";
                  content := Ok ("PARAM_DEFINE_FLOAT(SPD, 1.0);" : str) |} ];
     output_file := "out/px4_parameters.json";
     write_error := None |}.

(** The members of the object a parameter is written as. *)
Definition written_fields (p : ParameterMetadata) : pydict json :=
  match param_dict p with JObject m => m | _ => [] end.

(** The piece of the subject a pattern item may take. *)
Inductive piece_ok : rx -> str -> Prop :=
| ok_chr c a : c a = true -> piece_ok (Chr c) [a]
| ok_star c w : forallb c w = true -> piece_ok (Star c) w
| ok_open : piece_ok Open []
| ok_close : piece_ok Close [].

(** What [_parse_parameter] reads from an optional child: its text
    converted, when the child is there and is true. *)
Definition optional_child {A : Type} (path : str) (param_elem : Element)
    (conv : option str -> result A) : option A :=
  match elem_find path param_elem with
  | Some child =>
      if elem_bool child then
        match conv (text child) with Ok v => Some v | Raise _ => None end
      else None
  | None => None
  end.

(** ** Notions for the further properties *)

(** The tag and the value a buffered line gives, when it is a tag line. *)
Definition tag_of_line (line : str) : option (str * str) :=
  match search_groups re_comment_tag (strip_chars "/* " line) with
  | Some gs => Some (nth 0 gs [], nth 1 gs [])
  | None => None
  end.

(** The lines of the buffer that are no tag lines, without their
    decoration, and the assignments the tag lines make, both in order. *)
Fixpoint plain_lines (ls : list str) : list str :=
  match ls with
  | [] => []
  | l :: ls' =>
      match tag_of_line l with
      | Some _ => plain_lines ls'
      | None => strip_chars "/* " l :: plain_lines ls'
      end
  end.

Fixpoint tag_assignments (ls : list str) : list (str * str) :=
  match ls with
  | [] => []
  | l :: ls' =>
      match tag_of_line l with
      | Some kv => kv :: tag_assignments ls'
      | None => tag_assignments ls'
      end
  end.

Fixpoint drop_empty (ls : list str) : list str :=
  match ls with
  | [] :: ls' => drop_empty ls'
  | _ => ls
  end.

(** Every line followed by one space. *)
Definition spaced (ls : list str) : str :=
  List.concat (map (fun l => l ++ " ") ls).

(** An at-sign directly followed by an ASCII letter, somewhere in the
    text. *)
Definition has_at_letter (s : str) : Prop :=
  exists pre a rest, s = pre ++ "@"%char :: a :: rest /\ tag_head a = true.

(** The tags [_process_parameter_definition] looks up. *)
Definition recognised_tags : list str :=
  [ "group" : str; "min" : str; "max" : str; "unit" : str; "decimal" : str;
    "volatile" : str; "category" : str ].

(** The shape of group 1 of [re_comment_tag]. *)
Definition tag_identifier (s : str) : Prop :=
  match s with
  | a :: t => tag_head a = true /\ forallb tag_tail t = true
  | [] => False
  end.

(** A pattern without single characters. *)
Definition only_repeats (p : pattern) : bool :=
  forallb (fun r => match r with Chr _ => false | _ => true end) p.

(** A line that neither opens a comment nor holds a macro text the
    pattern finds. *)
Definition code_line (raw : str) : Prop :=
  is_match re_comment_start (strip raw) = false
  /\ search_groups re_param_define (strip raw) = None.

(** A macro line the scanner acts on when outside a comment, and its
    groups. *)
Definition macro_match (raw : str) (gs : list str) : Prop :=
  is_match re_comment_start (strip raw) = false
  /\ search_groups re_param_define (strip raw) = Some gs.

(** The entry of a macro line without documentation. *)
Definition undocumented (ty nm dflt rel : str) (n : Z) : ParameterMetadata :=
  new_ParameterMetadata nm ty dflt (Some []) (Some []) "Uncategorized" false
    (Some rel) (Some n).

(** Where a repetition stops: at the end, or before a character outside
    the class. *)
Definition stops (c : ascii -> bool) (s : str) : Prop :=
  match s with
  | [] => True
  | a :: _ => c a = false
  end.

(** An assignment the scan of lines [lo+1 .. hi] of a file can make. *)
Definition built_entry (rel : str) (lo hi : Z)
    (kv : str * ParameterMetadata) : Prop :=
  exists ty dflt cl n,
    (lo < n <= hi)%Z
    /\ macro_identifier ty /\ macro_identifier (fst kv) /\ default_token dflt
    /\ build_parameter ty (fst kv) dflt cl rel n = Ok (snd kv).

(** What a file defines by itself: the mapping its scan leaves when run
    on an empty mapping. *)
Definition file_entries (f : SourceFile) : pydict ParameterMetadata :=
  parameters (parse_source_file f {| parameters := []; log := [] |}).

(** The entry the last file of [files] that defines [k] gives it. *)
Definition last_definition (k : str) (files : list SourceFile)
  : option ParameterMetadata :=
  fold_left
    (fun acc f =>
       match dict_get k (file_entries f) with
       | Some v => Some v
       | None => acc
       end)
    files None.

(** Every entry sits under its own name. *)
Definition keyed_by_name (d : pydict ParameterMetadata) : Prop :=
  forall k p, dict_get k d = Some p -> name p = k.

(** The assignments the ingestor makes for a document: one for every
    parameter element that has a name and parses, in document order. *)
Definition xml_parameter_assignment (group_name : str) (param : Element)
  : list (str * ParameterMetadata) :=
  match parse_parameter_body param group_name with
  | Ok (Some metadata) => [(name metadata, metadata)]
  | _ => []
  end.

Definition xml_group_assignments (group : Element)
  : list (str * ParameterMetadata) :=
  flat_map
    (xml_parameter_assignment
       (dict_get_default (V:=str) "name" "Uncategorized" (attrib group)))
    (elem_findall "parameter" group).

Definition xml_assignments (root : Element)
  : list (str * ParameterMetadata) :=
  flat_map xml_group_assignments (elem_findall "group" root).

(** The assignments of the first stage of [parse_all]. *)
Definition ingest_assignments (repo : Repository)
  : list (str * ParameterMetadata) :=
  match injected repo with
  | Some (Ok root) => xml_assignments root
  | _ => []
  end.

(** An assignment some scanned line can make. *)
Definition scanned_entry (kv : str * ParameterMetadata) : Prop :=
  exists rel lo hi, (0 <= lo)%Z /\ built_entry rel lo hi kv.

(** An assignment the ingestor can make. *)
Definition ingested_entry (kv : str * ParameterMetadata) : Prop :=
  exists param group,
    parse_parameter_body param group = Ok (Some (snd kv))
    /\ fst kv = name (snd kv).

(** The code and the text of a [value] element. *)
Definition enum_item (v : Element) : str * option str :=
  (dict_get_default (V:=str) "code" [] (attrib v), text v).

(** An optional child of a parameter element that is read and does not
    convert. *)
Definition bad_optional_child {A : Type} (path : str) (param_elem : Element)
    (conv : option str -> result A) : Prop :=
  exists child e,
    elem_find path param_elem = Some child
    /\ elem_bool child = true /\ conv (text child) = Raise e.

(** A [values] child with a [value] element that has no [code]. *)
Definition value_without_code (param_elem : Element) : Prop :=
  exists values_elem v,
    elem_find "values" param_elem = Some values_elem
    /\ In v (elem_findall "value" values_elem)
    /\ dict_get "code" (attrib v) = None.

(** The log of [b] is the log of [a] with records added at the end. *)
Definition log_extends (a b : PState) : Prop :=
  exists l, log b = log a ++ l.

(** * Properties *)

(** ** The library functions on a few inputs *)

Example strip_blanks : strip "  * @min 0  " = list_ascii_of_string "* @min 0".
Proof. reflexivity. Qed.

Example strip_decoration :
  strip_chars "/* " "* @group Test */" = list_ascii_of_string "@group Test".
Proof. reflexivity. Qed.

Example split_keeps_empty_lines :
  split_lines (unlines ["a" : str; "" : str; "b" : str])
  = ["a" : str; "" : str; "b" : str].
Proof. reflexivity. Qed.

Example param_define_groups :
  search_groups re_param_define "static PARAM_DEFINE_INT32 (SYS_ID ,  -1 ) ;"
  = Some ["INT32" : str; "SYS_ID" : str; "-1" : str].
Proof. reflexivity. Qed.

Example param_define_needs_semicolon :
  search_groups re_param_define "PARAM_DEFINE_INT32(SYS_ID, 1)" = None.
Proof. reflexivity. Qed.

Example comment_tag_groups :
  search_groups re_comment_tag "see @unit m/s" = Some ["unit" : str; "m/s" : str].
Proof. reflexivity. Qed.

Example float_one_tenth :
  py_float " 0.1 " = Ok (S754_finite false 7205759403792794 (-56)).
Proof. vm_compute. reflexivity. Qed.

Example float_overflow : py_float "-1e400" = Ok (S754_infinity true).
Proof. vm_compute. reflexivity. Qed.

Example float_rejects_words : py_float "fast" = Raise (ValueError "fast").
Proof. reflexivity. Qed.

Example int_rejects_fraction : py_int "2.0" = Raise (ValueError "2.0").
Proof. reflexivity. Qed.

Example leaf_element_is_false : elem_bool (leaf "min" "0") = false.
Proof. reflexivity. Qed.

(** ** Strings and dictionaries *)

Lemma str_eqb_eq (a b : str) : str_eqb a b = true <-> a = b.
Proof.
  revert b. induction a as [|x a IH]; intros [|y b]; simpl;
    try (split; [discriminate | discriminate]); [tauto|].
  rewrite andb_true_iff, Ascii.eqb_eq, IH.
  split; [intros [-> ->]; reflexivity | intros H; inversion H; auto].
Qed.

Lemma str_eqb_refl (a : str) : str_eqb a a = true.
Proof. apply str_eqb_eq. reflexivity. Qed.

Lemma str_eqb_neq (a b : str) : str_eqb a b = false <-> a <> b.
Proof.
  rewrite <- str_eqb_eq. destruct (str_eqb a b); split; congruence.
Qed.

Section DictFacts.
Variable V : Type.
Implicit Types (d : pydict V) (k : str) (v : V).

Lemma dict_get_set k k' v d :
  dict_get k (dict_set k' v d) = if str_eqb k k' then Some v else dict_get k d.
Proof.
  induction d as [|[k0 v0] d IH]; simpl.
  - destruct (str_eqb k k'); reflexivity.
  - destruct (str_eqb k' k0) eqn:E0; simpl.
    + apply str_eqb_eq in E0. subst k0.
      destruct (str_eqb k k'); reflexivity.
    + destruct (str_eqb k k0) eqn:E1.
      * apply str_eqb_eq in E1. subst k0.
        destruct (str_eqb k k') eqn:E2; [|reflexivity].
        apply str_eqb_eq in E2. subst k'.
        rewrite str_eqb_refl in E0. discriminate.
      * exact IH.
Qed.

Lemma dict_get_set_same k v d : dict_get k (dict_set k v d) = Some v.
Proof. rewrite dict_get_set, str_eqb_refl. reflexivity. Qed.

Lemma dict_keys_set k v d :
  dict_keys (dict_set k v d)
  = if dict_mem k d then dict_keys d else dict_keys d ++ [k].
Proof.
  unfold dict_mem, dict_keys.
  induction d as [|[k0 v0] d IH]; simpl; [reflexivity|].
  destruct (str_eqb k k0) eqn:E; simpl; [reflexivity|].
  rewrite IH. destruct (dict_get k d); reflexivity.
Qed.

Lemma dict_get_None_keys k d : dict_get k d = None -> ~ In k (dict_keys d).
Proof.
  induction d as [|[k0 v0] d IH]; simpl; [tauto|].
  destruct (str_eqb k k0) eqn:E; [discriminate|].
  apply str_eqb_neq in E. intros H [H1|H1]; [congruence|]. exact (IH H H1).
Qed.

(** Assignment keeps a dictionary a dictionary. *)
Lemma dict_set_wf k v d : dict_wf d -> dict_wf (dict_set k v d).
Proof.
  unfold dict_wf. intros H. rewrite dict_keys_set. unfold dict_mem.
  destruct (dict_get k d) eqn:E; [exact H|].
  apply NoDup_app; [exact H | repeat constructor; simpl; tauto |].
  intros x Hx [Hk|[]]. subst x. exact (dict_get_None_keys _ _ E Hx).
Qed.

Lemma dict_update_wf kvs d : dict_wf d -> dict_wf (dict_update kvs d).
Proof.
  revert d. induction kvs as [|[k v] kvs IH]; intros d H; simpl; [exact H|].
  apply IH, dict_set_wf, H.
Qed.

Lemma dict_update_related kvs (d0 d1 d2 : pydict V) :
  (forall k, dict_get k d1
             = match dict_get k d2 with
               | Some v => Some v
               | None => dict_get k d0
               end) ->
  forall k, dict_get k (dict_update kvs d1)
            = match dict_get k (dict_update kvs d2) with
              | Some v => Some v
              | None => dict_get k d0
              end.
Proof.
  revert d1 d2. induction kvs as [|[k0 v0] kvs IH]; intros d1 d2 H k.
  - apply H.
  - simpl. apply IH. intros k1. rewrite !dict_get_set.
    destruct (str_eqb k1 k0); [reflexivity | apply H].
Qed.

(** After a run of assignments a key holds what the run alone gives it,
    and what it held before when the run does not assign it. *)
Lemma dict_get_update k kvs d :
  dict_get k (dict_update kvs d)
  = match dict_get k (dict_update kvs []) with
    | Some v => Some v
    | None => dict_get k d
    end.
Proof. apply dict_update_related. reflexivity. Qed.
End DictFacts.

(** ** The line scanner, one branch at a time *)

Section ScanLine.
Variables (rel : str) (sc : Scanner) (st : PState) (raw : str).

Lemma scan_line_open :
  is_match re_comment_start (strip raw) = true ->
  scan_line rel (sc, st) raw
  = ({| current_comment := []; in_comment := true;
        line_count := line_count sc + 1 |}, st).
Proof. intros H. unfold scan_line. rewrite H. reflexivity. Qed.

Lemma scan_line_inside :
  is_match re_comment_start (strip raw) = false ->
  in_comment sc = true ->
  scan_line rel (sc, st) raw
  = ({| current_comment := current_comment sc ++ [strip raw];
        in_comment := negb (contains "*/" (strip raw));
        line_count := line_count sc + 1 |}, st).
Proof.
  intros H1 H2. unfold scan_line. rewrite H1, H2.
  destruct (contains "*/" (strip raw)); reflexivity.
Qed.

Lemma scan_line_macro gs :
  is_match re_comment_start (strip raw) = false ->
  in_comment sc = false ->
  search_groups re_param_define (strip raw) = Some gs ->
  scan_line rel (sc, st) raw
  = ({| current_comment := []; in_comment := false;
        line_count := line_count sc + 1 |},
     _process_parameter_definition (nth 0 gs []) (nth 1 gs [])
       (nth 2 gs []) (current_comment sc) rel (line_count sc + 1) st).
Proof.
  intros H1 H2 H3. unfold scan_line. rewrite H1, H2, H3. reflexivity.
Qed.

Lemma scan_line_other :
  is_match re_comment_start (strip raw) = false ->
  in_comment sc = false ->
  search_groups re_param_define (strip raw) = None ->
  scan_line rel (sc, st) raw
  = ({| current_comment := current_comment sc; in_comment := false;
        line_count := line_count sc + 1 |}, st).
Proof.
  intros H1 H2 H3. unfold scan_line. rewrite H1, H2, H3. reflexivity.
Qed.
End ScanLine.

Lemma scan_lines_cons rel raw rest acc :
  scan_lines rel (raw :: rest) acc = scan_lines rel rest (scan_line rel acc raw).
Proof. reflexivity. Qed.

(** ** The end-to-end example *)

Lemma example_lines :
  split_lines example_source
  = [ "/**" : str; "* Short desc" : str; "* @min 0" : str;
      "* @max 10" : str; "* @group Test" : str; "*/" : str;
      "PARAM_DEFINE_FLOAT(MY_PARAM, 1.5);" : str ].
Proof. vm_compute. reflexivity. Qed.

Lemma example_build rel :
  build_parameter "FLOAT" "MY_PARAM" "1.5"
    [ "* Short desc" : str; "* @min 0" : str; "* @max 10" : str;
      "* @group Test" : str; "*/" : str ] rel 7
  = Ok {| name := "MY_PARAM"; type := "FLOAT"; default := "1.5";
          short_desc := Some ("Short desc" : str);
          long_desc := Some ("" : str);
          min_val := Some float_0; max_val := Some float_10;
          unit := None; decimal := None; group := "Test"; values := [];
          volatile := false; category := "Standard";
          source_file := Some rel; line_number := Some 7%Z |}.
Proof. vm_compute. reflexivity. Qed.

(** C4.  The source text made of the comment block [/**], [* Short desc],
    [* @min 0], [* @max 10], [* @group Test], [*/] and then the line
    [PARAM_DEFINE_FLOAT(MY_PARAM, 1.5);] puts under "MY_PARAM" an entry
    with type "FLOAT", default "1.5", short_desc "Short desc", min_val
    0.0, max_val 10.0 and group "Test" (and the defaults elsewhere),
    whatever the mapping held before. *)
Theorem end_to_end_example (path rel : str) (st : PState) :
  dict_get "MY_PARAM"
    (parameters
       (parse_source_file
          {| src_path := path; relative_path := rel;
             content := Ok example_source |} st))
  = Some {| name := "MY_PARAM"; type := "FLOAT"; default := "1.5";
            short_desc := Some ("Short desc" : str);
            long_desc := Some ("" : str);
            min_val := Some float_0; max_val := Some float_10;
            unit := None; decimal := None; group := "Test"; values := [];
            volatile := false; category := "Standard";
            source_file := Some rel; line_number := Some 7%Z |}.
Proof.
  unfold parse_source_file. cbn [content relative_path].
  rewrite example_lines.
  rewrite scan_lines_cons, scan_line_open by (vm_compute; reflexivity).
  do 5 (rewrite scan_lines_cons, scan_line_inside
          by (vm_compute; reflexivity)).
  rewrite scan_lines_cons.
  rewrite (@scan_line_macro _ _ _ _
             [ "FLOAT" : str; "MY_PARAM" : str; "1.5" : str ])
    by (vm_compute; reflexivity).
  cbn [scan_lines fold_left snd].
  unfold _process_parameter_definition.
  cbn [current_comment line_count app nth].
  change (0 + 1 + 1 + 1 + 1 + 1 + 1 + 1)%Z with 7%Z.
  rewrite example_build. cbn [logged parameters].
  apply dict_get_set_same.
Qed.

(** ** Inside a comment block *)

(** C3, as stated, fails twice: inside a comment a line is appended
    without the blanks around it, and a line that holds the opening marker
    is not appended at all: it empties the buffer and the scanner stays
    inside the comment even when the line also holds the closing marker. *)
Lemma inside_comment_not_verbatim :
  let sc := {| current_comment := ["* a" : str]; in_comment := true;
               line_count := 1 |} in
  let st := new_parser "out" in
  current_comment (fst (scan_line "f.c" (sc, st) "  * b"))
    <> current_comment sc ++ ["  * b" : str]
  /\ current_comment (fst (scan_line "f.c" (sc, st) "/** b */"))
    <> current_comment sc ++ ["/** b */" : str]
  /\ contains "*/" "/** b */" = true
  /\ in_comment (fst (scan_line "f.c" (sc, st) "/** b */")) = true.
Proof. vm_compute. repeat split; discriminate. Qed.

(** C3, amended.  Inside a comment, a line without the opening marker is
    appended to the buffer once the blanks around it are stripped, the
    closing line included, and the scanner leaves the comment exactly when
    the line holds the closing marker; the mapping and the log are
    untouched. *)
Theorem inside_comment_appends_stripped
    (rel : str) (sc : Scanner) (st : PState) (raw : str) :
  in_comment sc = true ->
  is_match re_comment_start (strip raw) = false ->
  scan_line rel (sc, st) raw
  = ({| current_comment := current_comment sc ++ [strip raw];
        in_comment := negb (contains "*/" (strip raw));
        line_count := line_count sc + 1 |}, st).
Proof. intros H1 H2. apply scan_line_inside; assumption. Qed.

Lemma inside_comment_appends_stripped_witness :
  let sc := {| current_comment := ["* a" : str]; in_comment := true;
               line_count := 1 |} in
  scan_line "f.c" (sc, new_parser "out") "  */ "
  = ({| current_comment := ["* a" : str; "*/" : str]; in_comment := false;
        line_count := 2 |}, new_parser "out").
Proof.
  intros sc.
  exact (@inside_comment_appends_stripped "f.c" sc (new_parser "out") "  */ "
           eq_refl eq_refl).
Defined.

(** ** Comment detection comes first *)

Lemma scan_lines_unterminated rel lines :
  (forall l, In l lines -> contains "*/" (strip l) = false) ->
  forall sc st, in_comment sc = true ->
    snd (scan_lines rel lines (sc, st)) = st
    /\ in_comment (fst (scan_lines rel lines (sc, st))) = true.
Proof.
  induction lines as [|l lines IH]; intros H sc st Hin.
  - split; [reflexivity | exact Hin].
  - rewrite scan_lines_cons.
    destruct (is_match re_comment_start (strip l)) eqn:Eo.
    + rewrite scan_line_open by exact Eo.
      apply IH; [intros; apply H; right; assumption | reflexivity].
    + rewrite scan_line_inside by assumption.
      apply IH; [intros; apply H; right; assumption |].
      cbn [in_comment]. rewrite (H l (or_introl eq_refl)). reflexivity.
Qed.

(** C6.  On one line only one of the two detections acts: a line holding
    the comment-open marker leaves the mapping and the log as they were,
    whatever else it holds; so does every line read inside a comment, a
    macro line included; and inside a comment that no later line closes,
    the whole rest of the file leaves them as they were. *)
Theorem comment_swallows_macro :
  (forall rel sc st raw,
      is_match re_comment_start (strip raw) = true ->
      snd (scan_line rel (sc, st) raw) = st)
  /\ (forall rel sc st raw,
         in_comment sc = true ->
         snd (scan_line rel (sc, st) raw) = st)
  /\ (forall rel sc st lines,
         in_comment sc = true ->
         (forall l, In l lines -> contains "*/" (strip l) = false) ->
         snd (scan_lines rel lines (sc, st)) = st).
Proof.
  split; [|split].
  - intros rel sc st raw H. rewrite scan_line_open by exact H. reflexivity.
  - intros rel sc st raw H.
    destruct (is_match re_comment_start (strip raw)) eqn:Eo.
    + rewrite scan_line_open by exact Eo. reflexivity.
    + rewrite scan_line_inside by assumption. reflexivity.
  - intros rel sc st lines Hin H.
    apply (scan_lines_unterminated rel lines H sc st Hin).
Qed.

Lemma comment_swallows_macro_witness :
  let st := new_parser "out" in
  let inside := {| current_comment := []; in_comment := true;
                   line_count := 1 |} in
  is_match re_param_define "/** x */ PARAM_DEFINE_INT32(A, 1);" = true
  /\ snd (scan_line "f.c" (scan_start, st)
            "/** x */ PARAM_DEFINE_INT32(A, 1);") = st
  /\ snd (scan_line "f.c" (inside, st) "PARAM_DEFINE_INT32(A, 1);") = st
  /\ snd (scan_lines "f.c"
            [ "PARAM_DEFINE_INT32(A, 1);" : str; "" : str;
              "PARAM_DEFINE_FLOAT(B, 2.0);" : str ] (inside, st)) = st.
Proof.
  intros st inside.
  destruct comment_swallows_macro as (H1 & H2 & H3).
  split; [reflexivity|]. split; [|split].
  - apply H1. reflexivity.
  - apply H2. reflexivity.
  - apply H3; [reflexivity|].
    intros l Hl. simpl in Hl.
    destruct Hl as [<-|[<-|[<-|[]]]]; reflexivity.
Defined.

(** ** A parameter whose numeric tag does not parse *)

Lemma build_parameter_raises ty nm dflt comment_lines rel n :
  numeric_tag_unparsable (cf_metadata (parse_comment comment_lines)) ->
  exists e, build_parameter ty nm dflt comment_lines rel n = Raise e.
Proof.
  unfold build_parameter, optional_field.
  set (md := cf_metadata (parse_comment comment_lines)).
  intros [(v & e & Hg & Hp)|[(v & e & Hg & Hp)|(v & e & Hg & Hp)]].
  - rewrite Hg, Hp. cbn [bind]. eauto.
  - destruct (dict_get "min" md) as [vm|];
      [destruct (py_float vm); cbn [bind]; [|eauto]|cbn [bind]];
      rewrite Hg, Hp; cbn [bind]; eauto.
  - destruct (dict_get "min" md) as [vm|];
      [destruct (py_float vm); cbn [bind]; [|eauto]|cbn [bind]];
      (destruct (dict_get "max" md) as [vx|];
       [destruct (py_float vx); cbn [bind]; [|eauto]|cbn [bind]]);
      (destruct (dict_get "unit" md) as [vu|]; cbn [bind]);
      rewrite Hg, Hp; cbn [bind]; eauto.
Qed.



(** ** The XML ingestor *)

(** A child element without sub-elements is false, so the optional field
    it would give is skipped. *)
Lemma xml_optional_field_leaf {A : Type} path param_elem
    (conv : option str -> result A) update metadata child :
  elem_find path param_elem = Some child ->
  children child = [] ->
  xml_optional_field path param_elem conv update metadata = Ok metadata.
Proof.
  intros Hf Hc. unfold xml_optional_field, elem_bool. rewrite Hf, Hc.
  reflexivity.
Qed.

(** C1 at a document whose parameter SPD has the children [min] 0, [max]
    10, [unit] m/s and [decimal] 2: the entry the ingestor inserts has
    none of the four fields. *)
Theorem xml_leaf_children_are_dropped (path : str) :
  dict_get "SPD"
    (parameters (parse_xml_file path (Ok example_document) (new_parser "out")))
  = Some {| name := "SPD"; type := "FLOAT"; default := "1.0";
            short_desc := Some ("Speed" : str);
            long_desc := Some ("" : str);
            min_val := None; max_val := None; unit := None; decimal := None;
            group := "Nav"; values := []; volatile := false;
            category := "Standard";
            source_file := None; line_number := None |}.
Proof. reflexivity. Qed.

(** C2.  When the [try] of [parse_xml_file] raises, the mapping is the one
    the ingestion started with, the log gets one error record with the
    path and the exception, and [parse_xml_file] returns normally. *)
Theorem xml_parse_failure_keeps_mapping
    (xml_path : str) (doc : result Element) (st st' : PState) (e : exn) :
  parse_xml_try doc st = (st', Some e) ->
  parameters (parse_xml_file xml_path doc st) = parameters st
  /\ log (parse_xml_file xml_path doc st)
     = log st ++ [LogError ("Error parsing " ++ xml_path) e].
Proof.
  unfold parse_xml_file. intros H. rewrite H.
  destruct doc as [root|e0]; simpl in H; inversion H; subst.
  split; reflexivity.
Qed.

Lemma xml_parse_failure_keeps_mapping_witness :
  let st := with_parameter
              (new_ParameterMetadata "OLD" "INT32" "0" (Some []) (Some [])
                 "Uncategorized" false None None)
              (new_parser "out") in
  let e := ParseError "mismatched tag: line 3, column 2" in
  parameters (parse_xml_file "injected.xml" (Raise e) st) = parameters st
  /\ log (parse_xml_file "injected.xml" (Raise e) st)
     = log st ++ [LogError ("Error parsing injected.xml" : str) e].
Proof.
  intros st e.
  exact (@xml_parse_failure_keeps_mapping "injected.xml" (Raise e) st st e
           eq_refl).
Defined.

(** ** Build directories *)

Lemma starts_with_nil (s : str) : starts_with [] s = true.
Proof. destruct s; reflexivity. Qed.

Lemma contains_nil (s : str) : contains [] s = true.
Proof. destruct s; reflexivity. Qed.

Lemma split_on_head_prefix sep (s h : str) t :
  split_on sep s = h :: t -> starts_with h s = true.
Proof.
  revert h t. induction s as [|a s IH]; intros h t H; simpl in H.
  - inversion H. reflexivity.
  - destruct (Ascii.eqb a sep).
    + inversion H. reflexivity.
    + destruct (split_on sep s) as [|h' t'] eqn:E; inversion H; subst; simpl.
      * rewrite Ascii.eqb_refl. reflexivity.
      * rewrite Ascii.eqb_refl. simpl. eapply IH. reflexivity.
Qed.

Lemma split_on_contains sep (seg s : str) :
  In seg (split_on sep s) -> contains seg s = true.
Proof.
  induction s as [|a s IH]; simpl; intros H.
  - destruct H as [<-|[]]. reflexivity.
  - destruct (Ascii.eqb a sep).
    + destruct H as [<-|H]; [reflexivity|].
      rewrite (IH H). apply orb_true_r.
    + destruct (split_on sep s) as [|h t] eqn:E.
      * destruct H as [<-|[]]. simpl. rewrite Ascii.eqb_refl. reflexivity.
      * destruct H as [<-|H].
        -- simpl. rewrite Ascii.eqb_refl.
           rewrite (split_on_head_prefix _ _ E). reflexivity.
        -- rewrite (IH (or_intror H)). apply orb_true_r.
Qed.

Lemma has_segment_contains (seg path : str) :
  has_segment seg path = true -> contains seg path = true.
Proof.
  unfold has_segment, path_segments. intros H.
  apply existsb_exists in H. destruct H as (x & Hin & Hx).
  apply str_eqb_eq in Hx. subst x. eapply split_on_contains, Hin.
Qed.

Lemma fold_left_filter {A B : Type} (g : A -> B -> A) (p : B -> bool) l a :
  fold_left (fun a x => if p x then g a x else a) l a
  = fold_left g (filter p l) a.
Proof.
  revert a. induction l as [|x l IH]; intros a; simpl; [reflexivity|].
  destruct (p x); simpl; apply IH.
Qed.

Lemma fold_left_flat_map {A B C : Type} (g : A -> C -> A) (h : B -> list C)
    l a :
  fold_left (fun a x => fold_left g (h x) a) l a
  = fold_left g (flat_map h l) a.
Proof.
  revert a. induction l as [|x l IH]; intros a; simpl; [reflexivity|].
  rewrite fold_left_app. apply IH.
Qed.

Lemma scan_sources_scanned_files repo st :
  scan_sources repo st
  = fold_left (fun st f => parse_source_file f st) (scanned_files repo) st.
Proof.
  unfold scan_sources, scanned_files.
  rewrite <- fold_left_flat_map.
  revert st. induction source_extensions as [|ext l IH]; intros st;
    [reflexivity|].
  simpl. rewrite <- IH. f_equal.
  apply (fold_left_filter (fun st f => parse_source_file f st)
           (fun f => negb (contains "build" (src_path f)))).
Qed.

(** C8.  [parse_all] runs [parse_source_file] on the files of
    [scanned_files] and on nothing else, and no file whose path has a
    segment [build] is among them, whatever its extension. *)
Theorem build_paths_are_never_scanned (repo : Repository) :
  (forall st,
      scan_sources repo st
      = fold_left (fun st f => parse_source_file f st) (scanned_files repo) st)
  /\ forall f,
       has_segment "build" (src_path f) = true -> ~ In f (scanned_files repo).
Proof.
  split; [apply scan_sources_scanned_files|].
  intros f Hseg Hin. apply has_segment_contains in Hseg.
  unfold scanned_files in Hin. apply in_flat_map in Hin.
  destruct Hin as (ext & _ & Hin). apply filter_In in Hin.
  destruct Hin as [_ Hin]. rewrite Hseg in Hin. discriminate.
Qed.

Lemma build_paths_are_never_scanned_witness :
  let f := {| src_path := "/px4/build/px4_sitl/params.c";
              relative_path := "build/px4_sitl/params.c";
              content := Ok ("PARAM_DEFINE_INT32(A, 1);" : str) |} in
  let repo := {| repo_path := "/px4"; injected := None; tree := [f];
                 output_file := "out/px4_parameters.json";
                 write_error := None |} in
  ends_with ".c" (src_path f) = true /\ ~ In f (scanned_files repo).
Proof.
  intros f repo. split; [reflexivity|].
  exact (proj2 (build_paths_are_never_scanned repo) f eq_refl).
Defined.

(** ** One entry per name, and the source scan has the last word *)

Lemma fold_left_invariant {A B : Type} (P : A -> Prop) (f : A -> B -> A) l :
  (forall a x, P a -> P (f a x)) -> forall a, P a -> P (fold_left f l a).
Proof.
  intros Hf. induction l as [|x l IH]; intros a Ha; simpl; [exact Ha|].
  apply IH, Hf, Ha.
Qed.

Lemma dict_update_app {V : Type} (k1 k2 : list (str * V)) d :
  dict_update (k1 ++ k2) d = dict_update k2 (dict_update k1 d).
Proof. unfold dict_update. apply fold_left_app. Qed.

(** *** The ingestor only assigns entries *)

Lemma parse_parameter_parameters param_elem group st :
  parameters (fst (_parse_parameter param_elem group st)) = parameters st.
Proof.
  unfold _parse_parameter.
  destruct (parse_parameter_body param_elem group); reflexivity.
Qed.

Lemma parse_xml_group_wf st group :
  dict_wf (parameters st) -> dict_wf (parameters (parse_xml_group st group)).
Proof.
  unfold parse_xml_group.
  apply (fold_left_invariant (fun st => dict_wf (parameters st))).
  intros a x Ha.
  pose proof (parse_parameter_parameters x
                (dict_get_default (V:=str) "name" "Uncategorized"
                   (attrib group)) a) as Hp.
  destruct (_parse_parameter x _ a) as [st1 [m|]]; cbn [fst] in Hp.
  - cbn [logged parameters]. rewrite Hp. apply dict_set_wf, Ha.
  - rewrite Hp. exact Ha.
Qed.

Lemma parse_xml_file_wf xml_path doc st :
  dict_wf (parameters st) ->
  dict_wf (parameters (parse_xml_file xml_path doc st)).
Proof.
  intros H. unfold parse_xml_file, parse_xml_try.
  destruct doc as [root|e]; [|exact H].
  apply (fold_left_invariant (fun st => dict_wf (parameters st)));
    [intros; apply parse_xml_group_wf; assumption | exact H].
Qed.

Lemma ingest_xml_wf repo st :
  dict_wf (parameters st) -> dict_wf (parameters (ingest_xml repo st)).
Proof.
  intros H. unfold ingest_xml. destruct (injected repo); [|exact H].
  apply parse_xml_file_wf. exact H.
Qed.

(** *** The scanner only assigns entries, and the same ones whatever the
    mapping holds *)

Lemma optional_field_source_file {A : Type} tag md (conv : str -> result A)
    update p p' :
  (forall q a, source_file (update q a) = source_file q) ->
  optional_field tag md conv update p = Ok p' ->
  source_file p' = source_file p.
Proof.
  intros Hu. unfold optional_field.
  destruct (dict_get tag md) as [t|]; [|intros H; inversion H; reflexivity].
  destruct (conv t) as [a|e]; cbn [bind]; intros H; inversion H. apply Hu.
Qed.

Lemma bind_Ok {A B : Type} (r : result A) (k : A -> result B) b :
  bind r k = Ok b -> exists a, r = Ok a /\ k a = Ok b.
Proof. destruct r as [a|e]; cbn [bind]; intros H; [eauto | discriminate]. Qed.

Lemma build_parameter_source_file ty nm dflt comment_lines rel n p :
  build_parameter ty nm dflt comment_lines rel n = Ok p ->
  source_file p = Some rel.
Proof.
  unfold build_parameter. intros H.
  apply bind_Ok in H. destruct H as (p1 & H1 & H).
  apply bind_Ok in H. destruct H as (p2 & H2 & H).
  apply bind_Ok in H. destruct H as (p3 & H3 & H).
  apply bind_Ok in H. destruct H as (p4 & H4 & H).
  apply bind_Ok in H. destruct H as (p5 & H5 & H6).
  apply optional_field_source_file in H1; [|reflexivity].
  apply optional_field_source_file in H2; [|reflexivity].
  apply optional_field_source_file in H3; [|reflexivity].
  apply optional_field_source_file in H4; [|reflexivity].
  apply optional_field_source_file in H5; [|reflexivity].
  apply optional_field_source_file in H6; [|reflexivity].
  rewrite H6, H5, H4, H3, H2, H1. reflexivity.
Qed.

Lemma process_parameter_definition_updates ty nm dflt comment_lines rel n :
  exists kvs, from_source kvs /\
    forall st,
      parameters
        (_process_parameter_definition ty nm dflt comment_lines rel n st)
      = dict_update kvs (parameters st).
Proof.
  unfold _process_parameter_definition.
  destruct (build_parameter ty nm dflt comment_lines rel n) as [p|e] eqn:E.
  - exists [(nm, p)]. split; [|reflexivity].
    repeat constructor. cbn [snd].
    rewrite (build_parameter_source_file _ _ _ _ _ _ E). discriminate.
  - exists []. split; [constructor | reflexivity].
Qed.

Lemma scan_line_updates rel sc raw :
  exists kvs sc', from_source kvs /\
    forall st,
      fst (scan_line rel (sc, st) raw) = sc'
      /\ parameters (snd (scan_line rel (sc, st) raw))
         = dict_update kvs (parameters st).
Proof.
  destruct (is_match re_comment_start (strip raw)) eqn:Eo.
  { eexists [], _. split; [constructor|]. intros st.
    rewrite scan_line_open by exact Eo. cbn [fst snd].
    split; reflexivity. }
  destruct (in_comment sc) eqn:Ei.
  { eexists [], _. split; [constructor|]. intros st.
    rewrite scan_line_inside by assumption. cbn [fst snd].
    split; reflexivity. }
  destruct (search_groups re_param_define (strip raw)) as [gs|] eqn:Em.
  - destruct (process_parameter_definition_updates (nth 0 gs []) (nth 1 gs [])
                (nth 2 gs []) (current_comment sc) rel (line_count sc + 1))
      as (kvs & Hs & Hk).
    eexists kvs, _. split; [exact Hs|]. intros st.
    rewrite (scan_line_macro rel sc st raw Eo Ei Em). cbn [fst snd].
    split; [reflexivity | apply Hk].
  - eexists [], _. split; [constructor|]. intros st.
    rewrite scan_line_other by assumption. cbn [fst snd].
    split; reflexivity.
Qed.

Lemma scan_lines_updates rel lines :
  forall sc, exists kvs, from_source kvs /\
    forall st,
      parameters (snd (scan_lines rel lines (sc, st)))
      = dict_update kvs (parameters st).
Proof.
  induction lines as [|l lines IH]; intros sc.
  - exists []. split; [constructor | reflexivity].
  - destruct (scan_line_updates rel sc l) as (k1 & sc' & Hs1 & H1).
    destruct (IH sc') as (k2 & Hs2 & H2).
    exists (k1 ++ k2). split; [apply Forall_app; split; assumption|].
    intros st. rewrite scan_lines_cons.
    destruct (H1 st) as [Hf Hp].
    destruct (scan_line rel (sc, st) l) as [sc1 st1]. cbn [fst snd] in Hf, Hp.
    subst sc1. rewrite H2, Hp, dict_update_app. reflexivity.
Qed.

Lemma parse_source_file_updates f :
  exists kvs, from_source kvs /\
    forall st,
      parameters (parse_source_file f st) = dict_update kvs (parameters st).
Proof.
  unfold parse_source_file. destruct (content f) as [text0|e].
  - apply scan_lines_updates.
  - exists []. split; [constructor | reflexivity].
Qed.

Lemma scan_files_updates files :
  exists kvs, from_source kvs /\
    forall st,
      parameters (fold_left (fun st f => parse_source_file f st) files st)
      = dict_update kvs (parameters st).
Proof.
  induction files as [|f files IH].
  - exists []. split; [constructor | reflexivity].
  - destruct (parse_source_file_updates f) as (k1 & Hs1 & H1).
    destruct IH as (k2 & Hs2 & H2).
    exists (k1 ++ k2). split; [apply Forall_app; split; assumption|].
    intros st. simpl. rewrite H2, H1, dict_update_app. reflexivity.
Qed.

Lemma scan_sources_updates repo :
  exists kvs, from_source kvs /\
    forall st,
      parameters (scan_sources repo st) = dict_update kvs (parameters st).
Proof.
  destruct (scan_files_updates (scanned_files repo)) as (kvs & Hs & H).
  exists kvs. split; [exact Hs|]. intros st.
  rewrite scan_sources_scanned_files. apply H.
Qed.

Lemma dict_update_from_source kvs :
  from_source kvs ->
  forall d : pydict ParameterMetadata,
    (forall k v, dict_get k d = Some v -> source_file v <> None) ->
    forall k v, dict_get k (dict_update kvs d) = Some v ->
                source_file v <> None.
Proof.
  induction 1 as [|[k0 v0] kvs H0 _ IH]; intros d Hd k v; simpl.
  - apply Hd.
  - apply IH. intros k1 v1. rewrite dict_get_set.
    destruct (str_eqb k1 k0); [|apply Hd].
    intros E. inversion E. subst v1. exact H0.
Qed.

Lemma save_parameters_parameters out err st :
  parameters (fst (save_parameters out err st)) = parameters st.
Proof. unfold save_parameters. destruct err; reflexivity. Qed.



(** *** What the ingestor does with an optional child *)

Lemma xml_optional_field_Ok {A : Type} path param_elem
    (conv : option str -> result A) update metadata metadata' :
  xml_optional_field path param_elem conv update metadata = Ok metadata' ->
  match optional_child path param_elem conv with
  | Some v => metadata' = update metadata v
  | None => metadata' = metadata
  end.
Proof.
  unfold xml_optional_field, optional_child.
  destruct (elem_find path param_elem) as [child|];
    [|intros H; inversion H; reflexivity].
  destruct (elem_bool child); [|intros H; inversion H; reflexivity].
  destruct (conv (text child)); cbn [bind]; intros H; inversion H.
  reflexivity.
Qed.

(** The four optional fields of an entry made from XML: the field is read
    from the child only when the child has sub-elements, and is [None]
    both when the child is absent and when it is a leaf. *)
Lemma xml_entry_optional_fields param_elem group metadata :
  parse_parameter_body param_elem group = Ok (Some metadata) ->
  min_val metadata = optional_child "min" param_elem float_of_text
  /\ max_val metadata = optional_child "max" param_elem float_of_text
  /\ unit metadata
     = match optional_child "unit" param_elem (fun t => Ok t) with
       | Some t => t
       | None => None
       end
  /\ decimal metadata = optional_child "decimal" param_elem int_of_text.
Proof.
  unfold parse_parameter_body.
  destruct (dict_get "name" (attrib param_elem)) as [[|a nm]|];
    try (intros H; discriminate H).
  intros H.
  apply bind_Ok in H. destruct H as (m1 & H1 & H).
  apply bind_Ok in H. destruct H as (m2 & H2 & H).
  apply bind_Ok in H. destruct H as (m3 & H3 & H).
  apply bind_Ok in H. destruct H as (m4 & H4 & H).
  apply bind_Ok in H. destruct H as (m5 & H5 & H6).
  inversion H6. subst metadata. clear H6.
  apply xml_optional_field_Ok in H1, H2, H3, H4.
  assert (E5 : min_val m5 = min_val m4 /\ max_val m5 = max_val m4
               /\ unit m5 = unit m4 /\ decimal m5 = decimal m4).
  { destruct (elem_find "values" param_elem); [|inversion H5; auto].
    apply bind_Ok in H5. destruct H5 as (vs & _ & H5). inversion H5. auto. }
  destruct E5 as (-> & -> & -> & ->).
  destruct (optional_child "min" param_elem float_of_text);
    destruct (optional_child "max" param_elem float_of_text);
    destruct (optional_child "unit" param_elem (fun t => Ok t));
    destruct (optional_child "decimal" param_elem int_of_text);
    subst m4 m3 m2 m1; repeat split; reflexivity.
Qed.

(** ** The written document reads back as the mapping *)

Lemma nullable_str o : nullable as_str (json_opt JStr o) = Some o.
Proof. destruct o; reflexivity. Qed.

Lemma nullable_int o : nullable as_int (json_opt JInt o) = Some o.
Proof. destruct o; reflexivity. Qed.

Lemma nullable_float o : nullable as_float (json_opt JFloat o) = Some o.
Proof. destruct o; reflexivity. Qed.

Lemma map_members_values (vs : pydict (option str)) :
  map_members (nullable as_str)
    (map (fun kv => (fst kv, json_opt JStr (snd kv))) vs)
  = Some vs.
Proof.
  induction vs as [|[k v] vs IH]; [reflexivity|].
  cbn [map map_members fst snd]. rewrite nullable_str, IH. reflexivity.
Qed.

Lemma param_of_json_param_dict p : param_of_json (param_dict p) = Some p.
Proof.
  destruct p. unfold param_of_json, param_dict, field.
  cbn -[nullable json_opt map_members].
  rewrite !nullable_str, !nullable_float, !nullable_int.
  cbn -[map_members]. rewrite map_members_values. reflexivity.
Qed.

Lemma map_members_param_dict (ps : pydict ParameterMetadata) :
  map_members param_of_json (map (fun kv => (fst kv, param_dict (snd kv))) ps)
  = Some ps.
Proof.
  induction ps as [|[k p] ps IH]; [reflexivity|].
  cbn [map map_members fst snd].
  rewrite param_of_json_param_dict, IH. reflexivity.
Qed.

Lemma dict_set_fresh {V : Type} k (v : V) d :
  ~ In k (dict_keys d) -> dict_set k v d = d ++ [(k, v)].
Proof.
  induction d as [|[k0 v0] d IH]; simpl; intros H; [reflexivity|].
  destruct (str_eqb k k0) eqn:E.
  - apply str_eqb_eq in E. subst k0. tauto.
  - rewrite IH; [reflexivity | tauto].
Qed.

(** The comprehension over a dictionary keeps its items in order. *)
Lemma dict_comprehension {V W : Type} (g : V -> W) (ps : pydict V) :
  forall acc : pydict W,
    NoDup (dict_keys acc ++ dict_keys ps) ->
    fold_left (fun acc kv => dict_set (fst kv) (g (snd kv)) acc) ps acc
    = acc ++ map (fun kv => (fst kv, g (snd kv))) ps.
Proof.
  induction ps as [|[k v] ps IH]; intros acc H; simpl.
  - rewrite app_nil_r. reflexivity.
  - assert (Hk : ~ In k (dict_keys acc)).
    { intros Hin. apply NoDup_remove_2 in H. apply H.
      apply in_or_app. left. exact Hin. }
    rewrite dict_set_fresh by exact Hk. rewrite IH.
    + rewrite <- app_assoc. reflexivity.
    + unfold dict_keys in *. rewrite map_app, <- app_assoc. exact H.
Qed.

Lemma params_dict_wf ps :
  dict_wf ps ->
  params_dict ps = JObject (map (fun kv => (fst kv, param_dict (snd kv))) ps).
Proof.
  intros H. unfold params_dict. rewrite dict_comprehension; [reflexivity|].
  exact H.
Qed.

Lemma parameters_of_json_params_dict ps :
  dict_wf ps -> parameters_of_json (params_dict ps) = Some ps.
Proof.
  intros H. rewrite (params_dict_wf H). unfold parameters_of_json.
  cbn [as_object obind]. apply map_members_param_dict.
Qed.

Lemma parse_all_wf repo st :
  dict_wf (parameters st) -> dict_wf (parameters (fst (parse_all repo st))).
Proof.
  intros H. unfold parse_all. rewrite save_parameters_parameters.
  destruct (scan_sources_updates repo) as (kvs & _ & Hk).
  rewrite Hk. apply dict_update_wf. cbn [logged parameters].
  apply ingest_xml_wf. exact H.
Qed.



(** ** What a match of [re_param_define] says about the line *)

Lemma rx_match_star c p s :
  rx_match (Star c :: p) s
  = match s with
    | a :: s' =>
        if c a then
          match rx_match (Star c :: p) s' with
          | Some (w :: ws) => Some ((a :: w) :: ws)
          | _ => option_map (cons []) (rx_match p s)
          end
        else option_map (cons []) (rx_match p s)
    | [] => option_map (cons []) (rx_match p [])
    end.
Proof. destruct s; reflexivity. Qed.

Lemma option_map_cons_Some {A : Type} (x : A) o ws :
  option_map (cons x) o = Some ws -> exists ws', o = Some ws' /\ ws = x :: ws'.
Proof. destruct o; simpl; intros H; inversion H; eauto. Qed.

(** A successful match cuts a prefix of the subject into one piece per
    pattern item, each piece of the item's shape. *)
Lemma rx_match_sound p :
  forall s ws, rx_match p s = Some ws ->
    Forall2 piece_ok p ws /\ exists rest, s = List.concat ws ++ rest.
Proof.
  induction p as [|r p IH]; intros s ws H.
  - simpl in H. inversion H. split; [constructor | exists s; reflexivity].
  - destruct r as [c|c| |].
    + simpl in H. destruct s as [|a s]; [discriminate|].
      destruct (c a) eqn:Ec; [|discriminate].
      apply option_map_cons_Some in H. destruct H as (ws' & H & ->).
      destruct (IH _ _ H) as (HF & rest & ->).
      split; [constructor; [constructor; exact Ec | exact HF]|].
      exists rest. reflexivity.
    + revert ws H. induction s as [|a s IHs]; intros ws H;
        rewrite rx_match_star in H.
      * apply option_map_cons_Some in H. destruct H as (ws' & H & ->).
        destruct (IH _ _ H) as (HF & rest & Hr).
        split; [constructor; [constructor; reflexivity | exact HF]|].
        exists rest. exact Hr.
      * assert (Hskip : option_map (cons []) (rx_match p (a :: s)) = Some ws ->
                        Forall2 piece_ok (Star c :: p) ws
                        /\ exists rest, a :: s = List.concat ws ++ rest).
        { intros H'. apply option_map_cons_Some in H'.
          destruct H' as (ws' & H' & ->).
          destruct (IH _ _ H') as (HF & rest & Hr).
          split; [constructor; [constructor; reflexivity | exact HF]|].
          exists rest. exact Hr. }
        destruct (c a) eqn:Ec; [|exact (Hskip H)].
        destruct (rx_match (Star c :: p) s) as [[|w ws0]|] eqn:Es;
          [exact (Hskip H) | | exact (Hskip H)].
        inversion H. subst ws.
        destruct (IHs _ eq_refl) as (HF & rest & Hr).
        inversion HF as [|? ? ? ? Hw HF']. subst.
        inversion Hw. subst.
        split.
        -- constructor; [constructor; simpl; rewrite Ec; assumption | exact HF'].
        -- exists rest. reflexivity.
    + simpl in H. apply option_map_cons_Some in H. destruct H as (ws' & H & ->).
      destruct (IH _ _ H) as (HF & rest & Hr).
      split; [constructor; [constructor | exact HF]|]. exists rest. exact Hr.
    + simpl in H. apply option_map_cons_Some in H. destruct H as (ws' & H & ->).
      destruct (IH _ _ H) as (HF & rest & Hr).
      split; [constructor; [constructor | exact HF]|]. exists rest. exact Hr.
Qed.

Lemma rx_search_sound p :
  forall s pre ws, rx_search p s = Some (pre, ws) ->
    Forall2 piece_ok p ws /\ exists rest, s = pre ++ List.concat ws ++ rest.
Proof.
  induction s as [|a s IH]; intros pre ws H; simpl in H.
  - destruct (rx_match p []) as [ws0|] eqn:E; [|discriminate].
    inversion H. subst. apply (rx_match_sound _ _ E).
  - destruct (rx_match p (a :: s)) as [ws0|] eqn:E.
    + inversion H. subst. apply (rx_match_sound _ _ E).
    + destruct (rx_search p s) as [[pre0 ws0]|] eqn:Es; [|discriminate].
      inversion H. subst.
      destruct (IH _ _ eq_refl) as (HF & rest & Hr).
      split; [exact HF|]. exists rest. simpl. rewrite Hr. reflexivity.
Qed.

Unset Implicit Arguments.

Lemma one_of_single (c a : ascii) : char_in [c] a = true -> a = c.
Proof.
  unfold char_in. simpl. rewrite orb_false_r. apply Ascii.eqb_eq.
Qed.

Ltac invert_pieces :=
  repeat match goal with
         | H : Forall2 piece_ok (_ :: _) _ |- _ => inversion H; clear H; subst
         | H : Forall2 piece_ok [] _ |- _ => inversion H; clear H; subst
         | H : piece_ok (Chr _) _ |- _ => inversion H; clear H; subst
         | H : piece_ok (Star _) _ |- _ => inversion H; clear H; subst
         | H : piece_ok Open _ |- _ => inversion H; clear H; subst
         | H : piece_ok Close _ |- _ => inversion H; clear H; subst
         end.

Ltac assoc_app :=
  repeat (progress (rewrite <- ?app_assoc; cbn [app])).

Ltac assoc_app_in H :=
  repeat (progress (rewrite <- ?app_assoc in H; cbn [app] in H)).

Ltac name_chars :=
  repeat match goal with
         | H : Ascii.eqb _ ?a = true |- _ =>
             apply Ascii.eqb_eq in H; subst a
         | H : one_of _ ?a = true |- _ =>
             apply one_of_single in H; subst a
         end.

(** The groups of a match of [re_param_define] are the type, the name and
    the default of a macro text on the line. *)
Lemma re_param_define_groups line gs :
  search_groups re_param_define line = Some gs ->
  exists ty nm dflt, gs = [ty; nm; dflt] /\ macro_text line ty nm dflt.
Proof.
  unfold search_groups.
  destruct (rx_search re_param_define line) as [[pre ws]|] eqn:E;
    [|discriminate].
  intros H. inversion H. subst gs. clear H.
  destruct (rx_search_sound _ _ E) as (HF & rest & Hl). clear E.
  unfold re_param_define, lit, plus in *.
  cbn [map list_ascii_of_string app] in *.
  invert_pieces. name_chars.
  match goal with
  | |- exists ty nm dflt, [?t; ?n; ?d] = _ /\ _ => exists t, n, d
  end.
  split; [reflexivity|].
  match goal with
  | H1 : forallb isspace ?w1 = true, H2 : forallb isspace ?w2 = true,
    H3 : forallb isspace ?w3 = true, H4 : forallb isspace ?w4 = true,
    H5 : forallb isspace ?w5 = true
    |- macro_text
         (_ ++ List.concat [_; _; _; _; _; _; _; _; _; _; _; _; _; _; _; _; _;
                            ?w1; _; _; _; _; _; ?w2; _; ?w3; _; _; _; _; ?w4;
                            _; ?w5; _] ++ ?rest) _ _ _ =>
      exists pre, w1, w2, w3, w4, w5, rest
  end.
  unfold blanks, macro_identifier, default_token. cbn.
  repeat split; try assumption; try discriminate.
  - assoc_app. reflexivity.
  - apply andb_true_intro. split; assumption.
Qed.

(** C10, first half, with what an entry is then made of: outside a comment
    a line changes the parser only when it holds a macro text, and it then
    does what [_process_parameter_definition] does with the type, the name
    and the default of that text. *)
Lemma entry_only_from_macro_text rel sc st raw :
  in_comment sc = false ->
  snd (scan_line rel (sc, st) raw) <> st ->
  exists ty nm dflt,
    macro_text (strip raw) ty nm dflt
    /\ snd (scan_line rel (sc, st) raw)
       = _process_parameter_definition ty nm dflt (current_comment sc) rel
           (line_count sc + 1) st.
Proof.
  intros Hin Hne.
  destruct (is_match re_comment_start (strip raw)) eqn:Eo.
  { rewrite scan_line_open in Hne by exact Eo. contradiction Hne. reflexivity. }
  destruct (search_groups re_param_define (strip raw)) as [gs|] eqn:Em.
  - destruct (re_param_define_groups _ _ Em) as (ty & nm & dflt & -> & Ht).
    exists ty, nm, dflt. split; [exact Ht|].
    rewrite (scan_line_macro rel sc st raw Eo Hin Em). reflexivity.
  - rewrite scan_line_other in Hne by assumption.
    contradiction Hne. reflexivity.
Qed.

(** *** Lines that hold no macro text *)

Lemma app_last_unique (x : ascii) l0 :
  ~ In x l0 ->
  forall m0 post, l0 ++ [x] = m0 ++ x :: post -> post = [] /\ m0 = l0.
Proof.
  induction l0 as [|a l0 IH]; intros Hn m0 post H.
  - destruct m0 as [|b m0]; simpl in H; inversion H; [auto|].
    destruct m0; discriminate.
  - destruct m0 as [|b m0]; simpl in H; inversion H; subst.
    + exfalso. apply Hn. left. reflexivity.
    + destruct (IH (fun Hi => Hn (or_intror Hi)) _ _ H2) as [-> ->]. auto.
Qed.

Lemma blanks_last w z : blanks (w ++ [z]) -> isspace z = true.
Proof.
  unfold blanks. rewrite forallb_app. simpl. rewrite andb_true_r.
  intros H. apply andb_true_iff in H. tauto.
Qed.

(** Blanks at the end of a text whose last character is not a blank. *)
Lemma no_trailing_blanks (X Y w : str) (c : ascii) :
  blanks w -> isspace c = false -> X ++ w = Y ++ [c] -> w = [] /\ X = Y ++ [c].
Proof.
  intros Hw Hc H. destruct w as [|z w' _] using rev_ind.
  - rewrite app_nil_r in H. auto.
  - exfalso. rewrite app_assoc in H. apply app_inj_tail in H.
    destruct H as [_ ->]. apply blanks_last in Hw. congruence.
Qed.


Ltac each_ascii a :=
  destruct a as [[] [] [] [] [] [] [] []]; vm_compute; intuition discriminate.

Lemma macro_tail_plain a :
  macro_tail a = true ->
  isspace a = false /\ a <> "("%char /\ a <> ")"%char /\ a <> ","%char
  /\ a <> ";"%char.
Proof. each_ascii a. Qed.

Lemma macro_head_tail a : macro_head a = true -> macro_tail a = true.
Proof.
  unfold macro_head, macro_tail. intros H. apply orb_true_iff in H.
  destruct H as [->| ->]; [reflexivity | apply orb_true_r].
Qed.

Lemma isspace_plain a :
  isspace a = true ->
  macro_tail a = false /\ a <> "("%char /\ a <> ")"%char /\ a <> ","%char
  /\ a <> ";"%char.
Proof. each_ascii a. Qed.

Lemma default_char_plain a :
  default_char a = true -> a <> " "%char /\ a <> ","%char /\ a <> ")"%char.
Proof. each_ascii a. Qed.

Lemma macro_identifier_tail s :
  macro_identifier s -> forallb macro_tail s = true.
Proof.
  destruct s as [|a t]; simpl; [tauto|]. intros [Hh Ht].
  rewrite (macro_head_tail _ Hh). exact Ht.
Qed.

Lemma forallb_In {A : Type} (P : A -> bool) l x :
  forallb P l = true -> In x l -> P x = true.
Proof. intros H. apply (proj1 (forallb_forall P l) H). Qed.

Lemma split_not_in (c : ascii) A :
  ~ In c A ->
  forall B l R, A ++ B = l ++ c :: R ->
    exists l2, l = A ++ l2 /\ B = l2 ++ c :: R.
Proof.
  induction A as [|a A IH]; intros Hn B l R H.
  - exists l. auto.
  - destruct l as [|b l]; simpl in H; inversion H; subst.
    + exfalso. apply Hn. left. reflexivity.
    + destruct (IH (fun Hi => Hn (or_intror Hi)) _ _ _ H2) as (l2 & -> & ->).
      exists l2. auto.
Qed.

Lemma same_separator (c : ascii) P Q X R :
  ~ In c P -> X ++ c :: R = P ++ c :: Q ->
  (X = P /\ R = Q) \/ exists l, Q = l ++ c :: R.
Proof.
  intros Hn H. symmetry in H.
  destruct (split_not_in _ _ Hn _ _ _ H) as (l2 & -> & H2).
  destruct l2 as [|b l2]; simpl in H2; inversion H2; subst.
  - left. rewrite app_nil_r. auto.
  - right. exists l2. reflexivity.
Qed.

Lemma paren_depth_app s1 s2 k :
  paren_depth (s1 ++ s2) k
  = match paren_depth s1 k with
    | Some k' => paren_depth s2 k'
    | None => None
    end.
Proof.
  revert k. induction s1 as [|a s1 IH]; intros k; simpl; [reflexivity|].
  destruct (Ascii.eqb a "("); [apply IH|].
  destruct (Ascii.eqb a ")"); [|apply IH].
  destruct k; [reflexivity | apply IH].
Qed.

Lemma paren_depth_no_close s :
  ~ In ")"%char s ->
  forall k, exists k', paren_depth s k = Some k' /\ k <= k'.
Proof.
  induction s as [|a s IH]; intros Hn k; simpl.
  - exists k. auto.
  - assert (Hs : ~ In ")"%char s) by (intros Hi; apply Hn; right; exact Hi).
    destruct (Ascii.eqb a "(").
    + destruct (IH Hs (S k)) as (k' & -> & Hk). exists k'. split; [auto | lia].
    + destruct (Ascii.eqb a ")") eqn:E.
      * apply Ascii.eqb_eq in E. exfalso. apply Hn. left. auto.
      * apply IH, Hs.
Qed.

(** An opening parenthesis that nothing closes. *)
Lemma unclosed_not_balanced d1 R :
  ~ In ")"%char R -> balanced (d1 ++ "("%char :: R) = false.
Proof.
  intros Hn. unfold balanced. rewrite paren_depth_app.
  destruct (paren_depth d1 0) as [k|]; [|reflexivity].
  simpl. destruct (paren_depth_no_close _ Hn (S k)) as (k' & -> & Hk).
  destruct k'; [lia | reflexivity].
Qed.

(** Two runs of a class, each followed by a character outside it. *)
Lemma same_run (P : ascii -> bool) a1 :
  forall a2 x r1 y r2,
    forallb P a1 = true -> forallb P a2 = true -> P x = false -> P y = false ->
    a1 ++ x :: r1 = a2 ++ y :: r2 -> a1 = a2 /\ x = y /\ r1 = r2.
Proof.
  induction a1 as [|a a1 IH]; intros a2 x r1 y r2 H1 H2 Hx Hy H.
  - destruct a2 as [|b a2]; simpl in H; injection H as Hxy Hr; subst; [auto|].
    simpl in H2. apply andb_true_iff in H2. destruct H2. congruence.
  - destruct a2 as [|b a2]; simpl in H; injection H as Hab Hr; subst.
    + simpl in H1. apply andb_true_iff in H1. destruct H1. congruence.
    + simpl in H1, H2. apply andb_true_iff in H1, H2.
      destruct H1 as [_ H1], H2 as [_ H2].
      destruct (IH _ _ _ _ _ H1 H2 Hx Hy Hr) as (-> & -> & ->). auto.
Qed.

Lemma not_in_class (P : ascii -> bool) x s :
  forallb P s = true -> P x = false -> ~ In x s.
Proof. intros H Hx Hi. rewrite (forallb_In P s x H Hi) in Hx. discriminate. Qed.

Ltac split_in H :=
  repeat (rewrite ?in_app_iff in H; simpl In in H);
  repeat match type of H with
         | _ \/ _ => destruct H as [H|H]
         end.

(** [H] says that a given character is in a text made of runs of known
    classes and of given characters, none of which allows it. *)
Ltac not_among H :=
  split_in H;
  first [ discriminate H
        | contradiction
        | match type of H with
          | In ?x ?s =>
              match goal with
              | Hf : forallb ?P s = true |- _ =>
                  exact (not_in_class P x s Hf eq_refl H)
              end
          end ].

(** A macro invocation on a line of its own whose default literal has
    balanced parentheses, no semicolon, and a space, a comma or a closing
    parenthesis in it, holds no macro text. *)
Lemma macro_line_no_macro_text ty nm d :
  macro_identifier ty -> macro_identifier nm ->
  trimmed d -> balanced d = true -> ~ In ";"%char d ->
  (exists c, In c d /\ default_char c = false) ->
  forall ty' nm' dflt', ~ macro_text (macro_line ty nm d) ty' nm' dflt'.
Proof.
  intros Hty Hnm [(a & t & Hd1 & Ha) (t' & z & Hd2 & Hz)] Hbal Hsemi
    (c & Hc & Hbad) ty' nm' df'
    (pre & w1 & w2 & w3 & w4 & w5 & post & Hl & B1 & B2 & B3 & B4 & B5
     & I1 & I2 & [Hne Hdf]).
  apply macro_identifier_tail in Hty, Hnm, I1, I2.
  unfold blanks in *.
  set (PD := list_ascii_of_string "PARAM_DEFINE_") in *.
  assert (HPD : forallb macro_tail PD = true) by reflexivity.
  unfold macro_line in Hl.
  (* the semicolon *)
  assert (E1 : (PD ++ ty ++ "("%char :: nm ++ ","%char :: " "%char :: d
                ++ [")"%char]) ++ [";"%char]
               = (pre ++ PD ++ ty' ++ w1 ++ "("%char :: nm' ++ w2
                  ++ ","%char :: w3 ++ df' ++ w4 ++ ")"%char :: w5)
                 ++ ";"%char :: post).
  { assoc_app. cbn [list_ascii_of_string app] in Hl. exact Hl. }
  apply app_last_unique in E1.
  2:{ intros Hi. not_among Hi. }
  destruct E1 as [-> E2].
  (* the closing parenthesis *)
  assert (E2' : (pre ++ PD ++ ty' ++ w1 ++ "("%char :: nm' ++ w2
                 ++ ","%char :: w3 ++ df' ++ w4 ++ [")"%char]) ++ w5
                = (PD ++ ty ++ "("%char :: nm ++ ","%char :: " "%char :: d)
                  ++ [")"%char]).
  { assoc_app. assoc_app_in E2. exact E2. }
  apply no_trailing_blanks in E2'; [|exact B5|reflexivity].
  destruct E2' as [-> E3].
  assert (E3' : (pre ++ PD ++ ty' ++ w1 ++ "("%char :: nm' ++ w2
                 ++ ","%char :: w3 ++ df' ++ w4) ++ [")"%char]
                = (PD ++ ty ++ "("%char :: nm ++ ","%char :: " "%char :: d)
                  ++ [")"%char]).
  { assoc_app. assoc_app_in E3. exact E3. }
  apply app_inj_tail in E3'. destruct E3' as [E4 _].
  (* the end of the default *)
  assert (E4' : (pre ++ PD ++ ty' ++ w1 ++ "("%char :: nm' ++ w2
                 ++ ","%char :: w3 ++ df') ++ w4
                = (PD ++ ty ++ "("%char :: nm ++ ","%char :: " "%char :: t')
                  ++ [z]).
  { rewrite Hd2 in E4. assoc_app. assoc_app_in E4. exact E4. }
  apply no_trailing_blanks in E4'; [|exact B4|exact Hz].
  destruct E4' as [-> E5]. clear E4.
  assert (E6 : (pre ++ PD ++ ty' ++ w1) ++ "("%char
               :: (nm' ++ w2 ++ ","%char :: w3 ++ df')
               = (PD ++ ty) ++ "("%char :: (nm ++ ","%char :: " "%char :: d)).
  { rewrite Hd2. assoc_app. assoc_app_in E5. exact E5. }
  clear E5.
  assert (HR : ~ In ")"%char (nm' ++ w2 ++ ","%char :: w3 ++ df')).
  { intros Hi. not_among Hi. }
  apply same_separator in E6.
  2:{ intros Hi. not_among Hi. }
  destruct E6 as [[_ E7]|[l E7]].
  - (* the same opening parenthesis *)
    destruct w2 as [|b w2].
    + cbn [app] in E7.
      apply (same_run macro_tail) in E7; try assumption; try reflexivity.
      destruct E7 as (_ & _ & E8).
      destruct w3 as [|b w3]; cbn [app] in E8.
      * subst df'. simpl in Hdf. discriminate.
      * injection E8 as -> E9.
        destruct w3 as [|b' w3]; cbn [app] in E9.
        -- subst df'. rewrite (forallb_In _ _ _ Hdf Hc) in Hbad. discriminate.
        -- rewrite Hd1 in E9. injection E9 as -> _.
           simpl in B3. rewrite Ha in B3. discriminate.
    + cbn [app] in E7. simpl in B2. apply andb_true_iff in B2.
      destruct B2 as [Hb _].
      apply (same_run macro_tail) in E7; try assumption; try reflexivity.
      * destruct E7 as (_ & -> & _). discriminate.
      * exact (proj1 (isspace_plain _ Hb)).
  - (* an opening parenthesis inside the default *)
    assert (E8 : (nm ++ [","%char; " "%char]) ++ d
                 = l ++ "("%char :: (nm' ++ w2 ++ ","%char :: w3 ++ df')).
    { rewrite <- E7. assoc_app. reflexivity. }
    apply split_not_in in E8.
    2:{ intros Hi. not_among Hi. }
    destruct E8 as (l2 & _ & E9).
    rewrite E9, (unclosed_not_balanced l2 _ HR) in Hbal. discriminate.
Qed.




(** * Further properties *)

(** ** How the comment buffer is read *)

Lemma comment_line_tag acc l t v :
  tag_of_line l = Some (t, v) ->
  comment_line acc l
  = {| cf_short_desc := cf_short_desc acc; cf_long_desc := cf_long_desc acc;
       cf_metadata := dict_set t v (cf_metadata acc) |}.
Proof.
  unfold tag_of_line, comment_line.
  destruct (search_groups re_comment_tag (strip_chars "/* " l));
    [|discriminate].
  intros H. inversion H. reflexivity.
Qed.

Lemma comment_line_plain acc l :
  tag_of_line l = None ->
  comment_line acc l
  = match cf_short_desc acc with
    | [] => {| cf_short_desc := strip_chars "/* " l;
               cf_long_desc := cf_long_desc acc;
               cf_metadata := cf_metadata acc |}
    | _ :: _ => {| cf_short_desc := cf_short_desc acc;
                   cf_long_desc := cf_long_desc acc ++ strip_chars "/* " l ++ " ";
                   cf_metadata := cf_metadata acc |}
    end.
Proof.
  unfold tag_of_line, comment_line.
  destruct (search_groups re_comment_tag (strip_chars "/* " l));
    [discriminate|].
  intros _. reflexivity.
Qed.

Lemma fold_comment_line ls :
  forall acc,
    fold_left comment_line ls acc
    = {| cf_short_desc :=
           match cf_short_desc acc with
           | [] => hd [] (drop_empty (plain_lines ls))
           | _ :: _ => cf_short_desc acc
           end;
         cf_long_desc :=
           cf_long_desc acc
           ++ match cf_short_desc acc with
              | [] => spaced (tl (drop_empty (plain_lines ls)))
              | _ :: _ => spaced (plain_lines ls)
              end;
         cf_metadata := dict_update (tag_assignments ls) (cf_metadata acc) |}.
Proof.
  induction ls as [|l ls IH]; intros [sh lg md]; cbn [fold_left].
  - cbn. destruct sh; rewrite app_nil_r; reflexivity.
  - cbn [plain_lines tag_assignments].
    destruct (tag_of_line l) as [[t v]|] eqn:E.
    + rewrite (comment_line_tag _ _ _ _ E), IH. reflexivity.
    + rewrite (comment_line_plain _ _ E), IH.
      set (p := strip_chars "/* " l). cbn.
      destruct sh as [|a sh]; cbn.
      * destruct p as [|b p]; cbn; reflexivity.
      * unfold spaced. cbn. rewrite <- !app_assoc. reflexivity.
Qed.

Lemma parse_comment_spec (ls : list str) :
  cf_short_desc (parse_comment ls) = hd [] (drop_empty (plain_lines ls))
  /\ cf_long_desc (parse_comment ls)
     = spaced (tl (drop_empty (plain_lines ls)))
  /\ cf_metadata (parse_comment ls) = dict_update (tag_assignments ls) [].
Proof.
  unfold parse_comment. rewrite fold_comment_line. cbn. auto.
Qed.

(** X1.  The short description is the first buffered line that is neither
    a tag line nor empty once its decoration is stripped; the long
    description is made of the later lines that are no tag lines, each
    followed by one space; the tags are assigned in the order of the
    buffer. *)
Theorem parse_comment_reads (ls : list str) :
  cf_short_desc (parse_comment ls) = hd [] (drop_empty (plain_lines ls))
  /\ cf_long_desc (parse_comment ls)
     = spaced (tl (drop_empty (plain_lines ls)))
  /\ cf_metadata (parse_comment ls) = dict_update (tag_assignments ls) [].
Proof. exact (parse_comment_spec ls). Qed.

(** ** Tag lines *)

(** The groups of a match of [re_comment_tag]: the tag after an at-sign,
    and what follows the blanks after it. *)
Lemma re_comment_tag_groups s gs :
  search_groups re_comment_tag s = Some gs ->
  exists pre t w v rest,
    gs = [t; v] /\ s = pre ++ "@"%char :: t ++ w ++ v ++ rest
    /\ tag_identifier t /\ blanks w /\ forallb any_char v = true.
Proof.
  unfold search_groups.
  destruct (rx_search re_comment_tag s) as [[pre ws]|] eqn:E; [|discriminate].
  intros H. inversion H. subst gs. clear H.
  destruct (@rx_search_sound _ _ _ _ E) as (HF & rest & Hl). clear E.
  unfold re_comment_tag, lit in *.
  cbn [map list_ascii_of_string app] in *.
  invert_pieces. name_chars.
  match goal with
  | Hw : forallb isspace ?bl = true, Hv : forallb any_char ?g2 = true
    |- exists pre t w v rest, [?g1; _] = _ /\ _ =>
      exists pre, g1, bl, g2, rest
  end.
  unfold blanks, tag_identifier. cbn.
  repeat split; try assumption.
  assoc_app. reflexivity.
Qed.

Lemma rx_match_only_repeats p :
  only_repeats p = true -> forall s, exists ws, rx_match p s = Some ws.
Proof.
  induction p as [|r p IH]; intros Hp s; [exists []; reflexivity|].
  cbn in Hp. destruct r as [c|c| |]; try discriminate;
    specialize (IH Hp).
  - induction s as [|a s IHs]; rewrite rx_match_star.
    + destruct (IH []) as [ws ->]. eexists. reflexivity.
    + destruct (IH (a :: s)) as [ws Hws].
      destruct (c a); [|rewrite Hws; eexists; reflexivity].
      destruct (rx_match (Star c :: p) s) as [[|w ws0]|];
        try (rewrite Hws; eexists; reflexivity).
      eexists. reflexivity.
  - destruct (IH s) as [ws Hws]. cbn. rewrite Hws. eexists. reflexivity.
  - destruct (IH s) as [ws Hws]. cbn. rewrite Hws. eexists. reflexivity.
Qed.

(** A match somewhere in the subject makes the search succeed. *)
Lemma rx_search_finds p s2 ws :
  rx_match p s2 = Some ws ->
  forall s1, exists r, rx_search p (s1 ++ s2) = Some r.
Proof.
  intros H s1. induction s1 as [|a s1 IH]; cbn [app].
  - destruct s2; cbn; rewrite H; eexists; reflexivity.
  - cbn. destruct (rx_match p (a :: s1 ++ s2)); [eexists; reflexivity|].
    destruct IH as [[pre ws'] ->]. eexists. reflexivity.
Qed.

Lemma at_letter_is_tag s :
  has_at_letter s <-> search_groups re_comment_tag s <> None.
Proof.
  split.
  - intros (pre & a & rest & -> & Ha).
    assert (Hm : exists ws,
               rx_match re_comment_tag ("@"%char :: a :: rest) = Some ws).
    { unfold re_comment_tag, lit. cbn [map list_ascii_of_string app].
      cbn [rx_match]. rewrite Ascii.eqb_refl, Ha.
      destruct (rx_match_only_repeats
                  [Star tag_tail; Close; Star isspace; Open; Star any_char;
                   Close] eq_refl rest) as [ws Hws].
      cbn [rx_match] in Hws |- *. rewrite Hws. eexists. reflexivity. }
    destruct Hm as [ws Hm].
    destruct (rx_search_finds _ _ _ Hm pre) as [[p0 w0] Hr].
    unfold search_groups. rewrite Hr. discriminate.
  - destruct (search_groups re_comment_tag s) as [gs|] eqn:E;
      [|intros H; contradiction H; reflexivity].
    intros _.
    destruct (re_comment_tag_groups _ _ E)
      as (pre & t & w & v & rest & _ & -> & Ht & _).
    destruct t as [|a t]; [contradiction|]. destruct Ht as [Ha _].
    exists pre, a, (t ++ w ++ v ++ rest). split; [reflexivity | exact Ha].
Qed.

(** X2.  A buffered line is a tag line exactly when, once its decoration
    is stripped, it holds an at-sign directly followed by an ASCII letter,
    wherever in the line; such a line only assigns a tag and leaves both
    descriptions as they were, and any other line leaves the tags as they
    were. *)
Theorem tag_line_iff_at_letter (acc : CommentFields) (line : str) :
  (has_at_letter (strip_chars "/* " line) <-> tag_of_line line <> None)
  /\ (has_at_letter (strip_chars "/* " line) ->
      cf_short_desc (comment_line acc line) = cf_short_desc acc
      /\ cf_long_desc (comment_line acc line) = cf_long_desc acc
      /\ exists t v,
           tag_identifier t
           /\ cf_metadata (comment_line acc line)
              = dict_set t v (cf_metadata acc))
  /\ (~ has_at_letter (strip_chars "/* " line) ->
      cf_metadata (comment_line acc line) = cf_metadata acc).
Proof.
  assert (Hiff : has_at_letter (strip_chars "/* " line)
                 <-> tag_of_line line <> None).
  { rewrite at_letter_is_tag. unfold tag_of_line.
    destruct (search_groups re_comment_tag (strip_chars "/* " line));
      split; intros H; try discriminate; contradiction H; reflexivity. }
  split; [exact Hiff|]. split.
  - intros H. apply Hiff in H.
    destruct (tag_of_line line) as [[t v]|] eqn:E;
      [|contradiction H; reflexivity].
    rewrite (comment_line_tag acc _ _ _ E). cbn.
    split; [reflexivity|]. split; [reflexivity|].
    exists t, v. split; [|reflexivity].
    unfold tag_of_line in E.
    destruct (search_groups re_comment_tag (strip_chars "/* " line))
      as [gs|] eqn:Eg; [|discriminate].
    destruct (re_comment_tag_groups _ _ Eg)
      as (pre & t' & w & v' & rest & -> & _ & Ht & _).
    inversion E. subst. exact Ht.
  - intros H.
    destruct (tag_of_line line) as [kv|] eqn:E.
    + exfalso. apply H, Hiff. discriminate.
    + rewrite (comment_line_plain acc _ E).
      destruct (cf_short_desc acc); reflexivity.
Qed.

Lemma tag_line_iff_at_letter_witness :
  let acc := {| cf_short_desc := "Speed"; cf_long_desc := [];
                cf_metadata := [] |} in
  cf_short_desc (comment_line acc "* mail me@example.org") = "Speed"
  /\ cf_long_desc (comment_line acc "* mail me@example.org") = []
  /\ cf_metadata (comment_line acc "* 100 @ 5 m/s") = [].
Proof.
  intros acc.
  destruct (tag_line_iff_at_letter acc "* mail me@example.org")
    as (_ & H1 & _).
  destruct (tag_line_iff_at_letter acc "* 100 @ 5 m/s") as (_ & _ & H2).
  destruct H1 as (Hs & Hl & _).
  { exists (list_ascii_of_string "mail me"), "e"%char,
      (list_ascii_of_string "xample.org"). split; reflexivity. }
  split; [exact Hs|]. split; [exact Hl|].
  apply H2. intros Ht.
  apply (proj1 (at_letter_is_tag _)) in Ht. apply Ht. reflexivity.
Defined.

(** ** Which tag text counts, and which tags count *)

Lemma dict_get_update_other {V : Type} (k : str) (kvs : list (str * V)) :
  ~ In k (map fst kvs) ->
  forall d, dict_get k (dict_update kvs d) = dict_get k d.
Proof.
  unfold dict_update.
  induction kvs as [|[k0 v0] kvs IH]; intros Hn d; [reflexivity|].
  cbn [fold_left fst snd]. rewrite IH.
  - rewrite dict_get_set.
    destruct (str_eqb k k0) eqn:E; [|reflexivity].
    apply str_eqb_eq in E. subst k0. exfalso. apply Hn. left. reflexivity.
  - intros Hi. apply Hn. right. exact Hi.
Qed.

Lemma dict_update_cons {V : Type} (k : str) (v : V) kvs d :
  dict_update ((k, v) :: kvs) d = dict_update kvs (dict_set k v d).
Proof. reflexivity. Qed.

Lemma tag_assignments_app a b :
  tag_assignments (a ++ b) = tag_assignments a ++ tag_assignments b.
Proof.
  induction a as [|l a IH]; [reflexivity|]. cbn.
  destruct (tag_of_line l); cbn; rewrite IH; reflexivity.
Qed.

Lemma plain_lines_app a b :
  plain_lines (a ++ b) = plain_lines a ++ plain_lines b.
Proof.
  induction a as [|l a IH]; [reflexivity|]. cbn.
  destruct (tag_of_line l); cbn; rewrite IH; reflexivity.
Qed.

Lemma tag_assignments_keys ls k :
  In k (map fst (tag_assignments ls)) ->
  exists l v, In l ls /\ tag_of_line l = Some (k, v).
Proof.
  induction ls as [|l ls IH]; cbn; [tauto|].
  destruct (tag_of_line l) as [[t v]|] eqn:E; cbn.
  - intros [<-|H].
    + exists l, v. auto.
    + destruct (IH H) as (l' & v' & Hin & Hl). exists l', v'. auto.
  - intros H. destruct (IH H) as (l' & v' & Hin & Hl). exists l', v'. auto.
Qed.

Lemma parse_comment_metadata ls :
  cf_metadata (parse_comment ls) = dict_update (tag_assignments ls) [].
Proof. unfold parse_comment. rewrite fold_comment_line. reflexivity. Qed.

(** X3.  When several buffered lines carry the same tag, the text of the
    last one is the text of the tag. *)
Theorem last_tag_line_wins (before after : list str) (l t v : str) :
  tag_of_line l = Some (t, v) ->
  (forall l' v', In l' after -> tag_of_line l' <> Some (t, v')) ->
  dict_get t (cf_metadata (parse_comment (before ++ l :: after))) = Some v.
Proof.
  intros Hl Hafter.
  rewrite parse_comment_metadata, tag_assignments_app.
  cbn [tag_assignments]. rewrite Hl.
  rewrite (@dict_update_app str), dict_update_cons.
  rewrite dict_get_update_other.
  - apply dict_get_set_same.
  - intros Hi. destruct (tag_assignments_keys _ _ Hi) as (l' & v' & Hin & E).
    exact (Hafter l' v' Hin E).
Qed.

Lemma last_tag_line_wins_witness :
  dict_get "min"
    (cf_metadata
       (parse_comment
          [ "* Speed" : str; "* @min fast" : str; "* @min 5" : str;
            "* @max 9" : str; "*/" : str ]))
  = Some (list_ascii_of_string "5").
Proof.
  refine (last_tag_line_wins ["* Speed" : str; "* @min fast" : str]
            ["* @max 9" : str; "*/" : str] "* @min 5" "min" "5" eq_refl _).
  intros l' v' [<-|[<-|[]]]; vm_compute; discriminate.
Defined.

(** ** What a matched macro line is turned into *)

Lemma py_float_raises s e : py_float s = Raise e -> e = ValueError s.
Proof.
  unfold py_float.
  repeat match goal with
         | |- context [match ?x with _ => _ end] => destruct x
         end;
    intros H; inversion H; reflexivity.
Qed.

Lemma py_int_raises s e : py_int s = Raise e -> e = ValueError s.
Proof.
  unfold py_int.
  repeat match goal with
         | |- context [match ?x with _ => _ end] => destruct x
         end;
    intros H; inversion H; reflexivity.
Qed.

Lemma optional_field_Ok {A : Type} tag md (conv : str -> result A)
    update p p' :
  optional_field tag md conv update p = Ok p' ->
  match dict_get tag md with
  | Some t => exists v, conv t = Ok v /\ p' = update p v
  | None => p' = p
  end.
Proof.
  unfold optional_field. destruct (dict_get tag md) as [t|].
  - destruct (conv t) as [v|e] eqn:E; cbn [bind]; intros H; inversion H.
    eauto.
  - intros H. inversion H. reflexivity.
Qed.

Lemma optional_field_Raise {A : Type} tag md (conv : str -> result A)
    update p e :
  optional_field tag md conv update p = Raise e ->
  exists t, dict_get tag md = Some t /\ conv t = Raise e.
Proof.
  unfold optional_field. destruct (dict_get tag md) as [t|];
    [|discriminate].
  destruct (conv t) as [v|e'] eqn:E; cbn [bind]; intros H; inversion H.
  subst e'. eauto.
Qed.

Lemma bind_Raise {A B : Type} (r : result A) (k : A -> result B) e :
  bind r k = Raise e ->
  r = Raise e \/ exists a, r = Ok a /\ k a = Raise e.
Proof.
  destruct r as [a|e']; cbn [bind]; intros H; [eauto|].
  left. inversion H. reflexivity.
Qed.

Lemma build_parameter_Raise ty nm dflt comment_lines rel n e :
  build_parameter ty nm dflt comment_lines rel n = Raise e ->
  numeric_tag_unparsable (cf_metadata (parse_comment comment_lines))
  /\ exists text, e = ValueError text.
Proof.
  unfold build_parameter, numeric_tag_unparsable.
  set (md := cf_metadata (parse_comment comment_lines)).
  intros H.
  apply bind_Raise in H. destruct H as [H|(p1 & _ & H)].
  { apply optional_field_Raise in H. destruct H as (t & Hg & Hc).
    split; [left; eauto|]. exists t. exact (py_float_raises _ _ Hc). }
  apply bind_Raise in H. destruct H as [H|(p2 & _ & H)].
  { apply optional_field_Raise in H. destruct H as (t & Hg & Hc).
    split; [right; left; eauto|]. exists t. exact (py_float_raises _ _ Hc). }
  apply bind_Raise in H. destruct H as [H|(p3 & _ & H)].
  { apply optional_field_Raise in H. destruct H as (t & _ & Hc).
    discriminate Hc. }
  apply bind_Raise in H. destruct H as [H|(p4 & _ & H)].
  { apply optional_field_Raise in H. destruct H as (t & Hg & Hc).
    split; [right; right; eauto|]. exists t. exact (py_int_raises _ _ Hc). }
  apply bind_Raise in H. destruct H as [H|(p5 & _ & H)].
  { apply optional_field_Raise in H. destruct H as (t & _ & Hc).
    discriminate Hc. }
  apply optional_field_Raise in H. destruct H as (t & _ & Hc).
  discriminate Hc.
Qed.

(** X4.  A macro line that is matched fails to give an entry exactly when
    the buffer gives [min], [max] or [decimal] a text that does not parse;
    the exception logged is then a [ValueError].  The other tags never
    make it fail. *)
Theorem parameter_dropped_iff_numeric_tag_unparsable
    (ty nm dflt : str) (comment_lines : list str) (rel : str) (n : Z) :
  ((exists e, build_parameter ty nm dflt comment_lines rel n = Raise e)
   <-> numeric_tag_unparsable (cf_metadata (parse_comment comment_lines)))
  /\ forall e,
       build_parameter ty nm dflt comment_lines rel n = Raise e ->
       exists text, e = ValueError text.
Proof.
  split; [split|].
  - intros [e He]. exact (proj1 (build_parameter_Raise _ _ _ _ _ _ _ He)).
  - apply build_parameter_raises.
  - intros e He. exact (proj2 (build_parameter_Raise _ _ _ _ _ _ _ He)).
Qed.

Lemma build_parameter_fields ty nm dflt comment_lines rel n p :
  build_parameter ty nm dflt comment_lines rel n = Ok p ->
  let cf := parse_comment comment_lines in
  let md := cf_metadata cf in
  name p = nm /\ type p = ty /\ default p = dflt
  /\ short_desc p = Some (strip (cf_short_desc cf))
  /\ long_desc p = Some (strip (cf_long_desc cf))
  /\ group p = dict_get_default (V:=str) "group" "Uncategorized" md
  /\ option_map py_float (dict_get "min" md) = option_map Ok (min_val p)
  /\ option_map py_float (dict_get "max" md) = option_map Ok (max_val p)
  /\ unit p = dict_get "unit" md
  /\ option_map py_int (dict_get "decimal" md) = option_map Ok (decimal p)
  /\ volatile p = dict_mem "volatile" md
  /\ category p = dict_get_default (V:=str) "category" "Standard" md
  /\ values p = []
  /\ source_file p = Some rel /\ line_number p = Some n.
Proof.
  intros H. cbv zeta. unfold build_parameter in H.
  set (md := cf_metadata (parse_comment comment_lines)) in *.
  apply bind_Ok in H. destruct H as (p1 & H1 & H).
  apply bind_Ok in H. destruct H as (p2 & H2 & H).
  apply bind_Ok in H. destruct H as (p3 & H3 & H).
  apply bind_Ok in H. destruct H as (p4 & H4 & H).
  apply bind_Ok in H. destruct H as (p5 & H5 & H6).
  apply optional_field_Ok in H1, H2, H3, H4, H5, H6.
  unfold dict_mem, dict_get_default in *.
  destruct (dict_get "min" md) as [t1|];
    [destruct H1 as (v1 & E1 & ->)|subst p1];
    (destruct (dict_get "max" md) as [t2|];
     [destruct H2 as (v2 & E2 & ->)|subst p2]);
    (destruct (dict_get "unit" md) as [t3|];
     [destruct H3 as (v3 & E3 & ->); inversion E3; subst v3|subst p3]);
    (destruct (dict_get "decimal" md) as [t4|];
     [destruct H4 as (v4 & E4 & ->)|subst p4]);
    (destruct (dict_get "volatile" md) as [t5|];
     [destruct H5 as (v5 & E5 & ->); inversion E5; subst v5|subst p5]);
    (destruct (dict_get "category" md) as [t6|];
     [destruct H6 as (v6 & E6 & ->); inversion E6; subst v6|subst p]);
    cbn; rewrite ?E1, ?E2, ?E4; repeat split; reflexivity.
Qed.

(** X5.  When the parameter of a matched macro line is built, it is stored
    under the macro's name, and its fields are the three groups of the
    macro, the two descriptions stripped of blanks, the tags [group],
    [unit] and [category] as texts (with their defaults), [min], [max] and
    [decimal] converted, [volatile] set as soon as the tag is there
    whatever its text, no enum values, and the file and line passed in. *)
Theorem built_entry_fields
    (ty nm dflt : str) (comment_lines : list str) (rel : str) (n : Z)
    (st : PState) (p : ParameterMetadata) :
  build_parameter ty nm dflt comment_lines rel n = Ok p ->
  let cf := parse_comment comment_lines in
  let md := cf_metadata cf in
  dict_get nm
    (parameters
       (_process_parameter_definition ty nm dflt comment_lines rel n st))
  = Some p
  /\ name p = nm /\ type p = ty /\ default p = dflt
  /\ short_desc p = Some (strip (cf_short_desc cf))
  /\ long_desc p = Some (strip (cf_long_desc cf))
  /\ group p = dict_get_default (V:=str) "group" "Uncategorized" md
  /\ option_map py_float (dict_get "min" md) = option_map Ok (min_val p)
  /\ option_map py_float (dict_get "max" md) = option_map Ok (max_val p)
  /\ unit p = dict_get "unit" md
  /\ option_map py_int (dict_get "decimal" md) = option_map Ok (decimal p)
  /\ volatile p = dict_mem "volatile" md
  /\ category p = dict_get_default (V:=str) "category" "Standard" md
  /\ values p = []
  /\ source_file p = Some rel /\ line_number p = Some n.
Proof.
  intros H. cbv zeta. split.
  - unfold _process_parameter_definition. rewrite H.
    cbn [logged parameters]. apply dict_get_set_same.
  - exact (build_parameter_fields _ _ _ _ _ _ _ H).
Qed.

Lemma built_entry_fields_witness :
  let cl := [ "* Airspeed" : str; "* @volatile false" : str;
              "* @unit m/s" : str; "* @decimal 1" : str ] in
  let p := {| name := "ASPD"; type := "FLOAT"; default := "0.5";
              short_desc := Some ("Airspeed" : str);
              long_desc := Some ("" : str);
              min_val := None; max_val := None;
              unit := Some ("m/s" : str); decimal := Some 1%Z;
              group := "Uncategorized"; values := []; volatile := true;
              category := "Standard";
              source_file := Some ("a.c" : str); line_number := Some 9%Z |} in
  dict_get "ASPD"
    (parameters
       (_process_parameter_definition "FLOAT" "ASPD" "0.5" cl "a.c" 9
          (new_parser "out")))
  = Some p
  /\ volatile p = dict_mem "volatile" (cf_metadata (parse_comment cl)).
Proof.
  intros cl p.
  assert (H : build_parameter "FLOAT" "ASPD" "0.5" cl "a.c" 9 = Ok p)
    by (vm_compute; reflexivity).
  destruct (built_entry_fields "FLOAT" "ASPD" "0.5" cl "a.c" 9
              (new_parser "out") p H)
    as (Hget & _ & _ & _ & _ & _ & _ & _ & _ & _ & _ & Hv & _).
  split; [exact Hget | exact Hv].
Defined.

(** *** Tags the extractor does not know *)

Lemma dict_update_same_at {V : Type} (k : str) (kvs : list (str * V)) :
  forall d1 d2,
    dict_get k d1 = dict_get k d2 ->
    dict_get k (dict_update kvs d1) = dict_get k (dict_update kvs d2).
Proof.
  unfold dict_update.
  induction kvs as [|[k0 v0] kvs IH]; intros d1 d2 H; [exact H|].
  cbn [fold_left fst snd]. apply IH. rewrite !dict_get_set.
  destruct (str_eqb k k0); [reflexivity | exact H].
Qed.

Lemma build_parameter_ext ty nm dflt cl1 cl2 rel n :
  cf_short_desc (parse_comment cl1) = cf_short_desc (parse_comment cl2) ->
  cf_long_desc (parse_comment cl1) = cf_long_desc (parse_comment cl2) ->
  (forall k, In k recognised_tags ->
             dict_get k (cf_metadata (parse_comment cl1))
             = dict_get k (cf_metadata (parse_comment cl2))) ->
  build_parameter ty nm dflt cl1 rel n = build_parameter ty nm dflt cl2 rel n.
Proof.
  intros Hs Hl Hk.
  assert (K1 := Hk "group" (or_introl eq_refl)).
  assert (K2 := Hk "min" (or_intror (or_introl eq_refl))).
  assert (K3 := Hk "max" (or_intror (or_intror (or_introl eq_refl)))).
  assert (K4 := Hk "unit"
                  (or_intror (or_intror (or_intror (or_introl eq_refl))))).
  assert (K5 := Hk "decimal"
                  (or_intror (or_intror (or_intror (or_intror
                     (or_introl eq_refl)))))).
  assert (K6 := Hk "volatile"
                  (or_intror (or_intror (or_intror (or_intror (or_intror
                     (or_introl eq_refl))))))).
  assert (K7 := Hk "category"
                  (or_intror (or_intror (or_intror (or_intror (or_intror
                     (or_intror (or_introl eq_refl)))))))).
  unfold build_parameter, optional_field, dict_get_default.
  rewrite Hs, Hl, K1, K2, K3, K4, K5, K6, K7. reflexivity.
Qed.

(** X6.  A tag line whose tag is none of [group], [min], [max], [unit],
    [decimal], [volatile], [category] changes nothing: with or without
    it in the buffer, the same parameter is built, or the same error. *)
Theorem unknown_tag_is_ignored
    (ty nm dflt : str) (before after : list str) (l t v rel : str) (n : Z) :
  tag_of_line l = Some (t, v) ->
  ~ In t recognised_tags ->
  build_parameter ty nm dflt (before ++ l :: after) rel n
  = build_parameter ty nm dflt (before ++ after) rel n.
Proof.
  intros Hl Ht.
  destruct (parse_comment_spec (before ++ l :: after)) as (S1 & L1 & M1).
  destruct (parse_comment_spec (before ++ after)) as (S2 & L2 & M2).
  assert (Hp : plain_lines (before ++ l :: after)
               = plain_lines (before ++ after)).
  { rewrite !plain_lines_app. cbn [plain_lines]. rewrite Hl. reflexivity. }
  apply build_parameter_ext.
  - rewrite S1, S2, Hp. reflexivity.
  - rewrite L1, L2, Hp. reflexivity.
  - intros k Hk. rewrite M1, M2, !tag_assignments_app.
    cbn [tag_assignments]. rewrite Hl.
    rewrite !(@dict_update_app str), dict_update_cons.
    apply dict_update_same_at. rewrite dict_get_set.
    destruct (str_eqb k t) eqn:E; [|reflexivity].
    apply str_eqb_eq in E. subst k. contradiction.
Qed.

Lemma unknown_tag_is_ignored_witness :
  build_parameter "INT32" "SYS_AUTOSTART" "0"
    [ "* Auto-start script index." : str; "* @boolean" : str;
      "* @group System" : str ] "a.c" 3
  = build_parameter "INT32" "SYS_AUTOSTART" "0"
      [ "* Auto-start script index." : str; "* @group System" : str ] "a.c" 3.
Proof.
  refine (unknown_tag_is_ignored "INT32" "SYS_AUTOSTART" "0"
            ["* Auto-start script index." : str] ["* @group System" : str]
            "* @boolean" "boolean" "" "a.c" 3 eq_refl _).
  cbn. intros H. repeat destruct H as [H|H]; try discriminate H. exact H.
Defined.

(** ** The scanner and its buffer *)



Lemma scan_lines_app rel l1 l2 acc :
  scan_lines rel (l1 ++ l2) acc = scan_lines rel l2 (scan_lines rel l1 acc).
Proof. unfold scan_lines. apply fold_left_app. Qed.

Lemma scan_code_lines rel lines :
  Forall code_line lines ->
  forall sc st,
    in_comment sc = false ->
    scan_lines rel lines (sc, st)
    = ({| current_comment := current_comment sc; in_comment := false;
          line_count := line_count sc + Z.of_nat (List.length lines) |}, st).
Proof.
  induction 1 as [|l lines [Ho Hm] _ IH]; intros sc st Hin.
  - cbn. rewrite Z.add_0_r. destruct sc. cbn in Hin. subst. reflexivity.
  - rewrite scan_lines_cons, (scan_line_other rel sc st l Ho Hin Hm).
    rewrite IH by reflexivity. cbn [current_comment line_count].
    f_equal. f_equal. cbn [List.length]. lia.
Qed.

(** X8.  Lines that neither open a comment nor hold a macro text leave the
    buffer alone: the comment block documents the next macro line however
    many such lines lie between them. *)
Theorem comment_reaches_macro_across_code
    (rel : str) (sc : Scanner) (st : PState) (between : list str)
    (raw : str) (gs : list str) :
  in_comment sc = false ->
  Forall code_line between ->
  macro_match raw gs ->
  scan_lines rel (between ++ [raw]) (sc, st)
  = ({| current_comment := []; in_comment := false;
        line_count := line_count sc + Z.of_nat (List.length between) + 1 |},
     _process_parameter_definition (nth 0 gs []) (nth 1 gs []) (nth 2 gs [])
       (current_comment sc) rel
       (line_count sc + Z.of_nat (List.length between) + 1) st).
Proof.
  intros Hin Hb [Ho Hm].
  rewrite scan_lines_app, (scan_code_lines rel between Hb sc st Hin).
  rewrite scan_lines_cons.
  erewrite scan_line_macro; [reflexivity | exact Ho | reflexivity | exact Hm].
Qed.

Lemma comment_reaches_macro_across_code_witness :
  let sc := {| current_comment := ["* Speed" : str; "*/" : str];
               in_comment := false; line_count := 3 |} in
  snd (scan_lines "a.c"
         [ "" : str; "#include <px4.h>" : str; "static int x = 0;" : str;
           "PARAM_DEFINE_FLOAT(SPD, 1.0);" : str ]
         (sc, new_parser "out"))
  = _process_parameter_definition "FLOAT" "SPD" "1.0"
      ["* Speed" : str; "*/" : str] "a.c" 7 (new_parser "out").
Proof.
  intros sc.
  refine (f_equal snd
            (comment_reaches_macro_across_code "a.c" sc (new_parser "out")
               [ "" : str; "#include <px4.h>" : str;
                 "static int x = 0;" : str ]
               "PARAM_DEFINE_FLOAT(SPD, 1.0);"
               [ "FLOAT" : str; "SPD" : str; "1.0" : str ]
               eq_refl _ (conj eq_refl eq_refl))).
  repeat constructor.
Defined.

(** X9.  A comment block documents one macro line only: of two macro
    lines in a row the first takes the buffer and the second is entered
    without documentation, whether the first could be built or not. *)
Theorem comment_documents_first_macro_only
    (rel : str) (sc : Scanner) (st : PState) (raw1 raw2 : str)
    (gs1 gs2 : list str) :
  in_comment sc = false ->
  macro_match raw1 gs1 ->
  macro_match raw2 gs2 ->
  let st1 :=
    _process_parameter_definition (nth 0 gs1 []) (nth 1 gs1 []) (nth 2 gs1 [])
      (current_comment sc) rel (line_count sc + 1) st in
  snd (scan_line rel (sc, st) raw1) = st1
  /\ parameters (snd (scan_lines rel [raw1; raw2] (sc, st)))
     = dict_set (nth 1 gs2 [])
         (undocumented (nth 0 gs2 []) (nth 1 gs2 []) (nth 2 gs2 []) rel
            (line_count sc + 1 + 1))
         (parameters st1).
Proof.
  intros Hin [Ho1 Hm1] [Ho2 Hm2] st1. subst st1.
  rewrite !scan_lines_cons.
  rewrite (scan_line_macro rel sc st raw1 Ho1 Hin Hm1).
  split; [reflexivity|].
  erewrite scan_line_macro; [reflexivity | exact Ho2 | reflexivity | exact Hm2].
Qed.

Lemma comment_documents_first_macro_only_witness :
  let sc := {| current_comment := ["* Speed" : str; "* @unit m/s" : str];
               in_comment := false; line_count := 3 |} in
  option_map unit
    (dict_get "B"
       (parameters
          (snd (scan_lines "a.c"
                  [ "PARAM_DEFINE_FLOAT(A, 1.0);" : str;
                    "PARAM_DEFINE_FLOAT(B, 2.0);" : str ]
                  (sc, new_parser "out")))))
  = Some None.
Proof.
  intros sc.
  destruct (comment_documents_first_macro_only "a.c" sc (new_parser "out")
              "PARAM_DEFINE_FLOAT(A, 1.0);" "PARAM_DEFINE_FLOAT(B, 2.0);"
              [ "FLOAT" : str; "A" : str; "1.0" : str ]
              [ "FLOAT" : str; "B" : str; "2.0" : str ]
              eq_refl (conj eq_refl eq_refl) (conj eq_refl eq_refl))
    as [_ H].
  rewrite H. reflexivity.
Defined.

(** ** Macro lines the pattern does find *)

Lemma match_chr (c : ascii -> bool) p a s ws :
  c a = true -> rx_match p s = Some ws ->
  rx_match (Chr c :: p) (a :: s) = Some ([a] :: ws).
Proof. intros Hc H. cbn. rewrite Hc, H. reflexivity. Qed.

Lemma match_open p s ws :
  rx_match p s = Some ws -> rx_match (Open :: p) s = Some ([] :: ws).
Proof. intros H. cbn. rewrite H. reflexivity. Qed.

Lemma match_close p s ws :
  rx_match p s = Some ws -> rx_match (Close :: p) s = Some ([] :: ws).
Proof. intros H. cbn. rewrite H. reflexivity. Qed.

(** A repetition takes a whole run of its class when the run stops there
    and the rest of the pattern matches what follows. *)
Lemma match_star_run (c : ascii -> bool) p w s ws :
  forallb c w = true -> stops c s -> rx_match p s = Some ws ->
  rx_match (Star c :: p) (w ++ s) = Some (w :: ws).
Proof.
  intros Hw Hs H. induction w as [|a w IH]; cbn [app].
  - rewrite rx_match_star. destruct s as [|b s]; [rewrite H; reflexivity|].
    cbn in Hs. rewrite Hs, H. reflexivity.
  - cbn in Hw. apply andb_true_iff in Hw. destruct Hw as [Ha Hw].
    rewrite rx_match_star, Ha, (IH Hw). reflexivity.
Qed.

Lemma rx_search_here p s ws :
  rx_match p s = Some ws -> rx_search p s = Some ([], ws).
Proof. intros H. destruct s; cbn; rewrite H; reflexivity. Qed.

Lemma macro_line_groups ty nm d :
  macro_identifier ty -> macro_identifier nm -> default_token d ->
  stops isspace d ->
  search_groups re_param_define (macro_line ty nm d) = Some [ty; nm; d].
Proof.
  intros Hty Hnm [Hne Hd] Hfirst.
  destruct ty as [|a1 t1]; [contradiction|]. destruct Hty as [Ha1 Ht1].
  destruct nm as [|a2 t2]; [contradiction|]. destruct Hnm as [Ha2 Ht2].
  destruct d as [|a3 t3]; [contradiction Hne; reflexivity|].
  cbn in Hd. apply andb_true_iff in Hd. destruct Hd as [Ha3 Ht3].
  cbn in Hfirst.
  assert (Hm : rx_match re_param_define (macro_line (a1 :: t1) (a2 :: t2)
                                           (a3 :: t3))
               = Some [ ["P"%char]; ["A"%char]; ["R"%char]; ["A"%char];
                        ["M"%char]; ["_"%char]; ["D"%char]; ["E"%char];
                        ["F"%char]; ["I"%char]; ["N"%char]; ["E"%char];
                        ["_"%char]; []; [a1]; t1; []; []; ["("%char]; [];
                        [a2]; t2; []; []; [","%char]; [" "%char]; []; [a3];
                        t3; []; []; [")"%char]; []; [";"%char] ]).
  { unfold re_param_define, lit, plus, macro_line.
    cbn [map list_ascii_of_string app].
    do 13 (apply match_chr; [reflexivity|]).
    apply match_open. apply match_chr; [exact Ha1|].
    apply match_star_run; [exact Ht1 | reflexivity |].
    apply match_close.
    apply (match_star_run isspace _ []); [reflexivity | reflexivity |].
    apply match_chr; [reflexivity|].
    apply match_open. apply match_chr; [exact Ha2|].
    apply match_star_run; [exact Ht2 | reflexivity |].
    apply match_close.
    apply (match_star_run isspace _ []); [reflexivity | reflexivity |].
    apply match_chr; [reflexivity|].
    apply (match_star_run isspace _ [" "%char]);
      [reflexivity | exact Hfirst |].
    apply match_open. apply match_chr; [exact Ha3|].
    apply match_star_run; [exact Ht3 | reflexivity |].
    apply match_close.
    apply (match_star_run isspace _ []); [reflexivity | reflexivity |].
    apply match_chr; [reflexivity|].
    apply (match_star_run isspace _ []); [reflexivity | reflexivity |].
    apply match_chr; [reflexivity|]. reflexivity. }
  unfold search_groups. rewrite (rx_search_here _ _ _ Hm).
  cbn. rewrite ?app_nil_r. reflexivity.
Qed.

(** X10.  Outside a comment, a line that is, blanks around it apart, the
    macro invocation PARAM_DEFINE_<TYPE>(<NAME>, <default>); with a type
    and a name of capitals, digits and underscores not starting with a
    digit, and a default that holds no space, comma or closing
    parenthesis and does not start with a blank, is always acted on, with
    exactly that type, name and default, provided the line does not hold
    the comment opener. *)
Theorem plain_macro_line_is_recognised
    (rel : str) (sc : Scanner) (st : PState) (raw ty nm d : str) :
  strip raw = macro_line ty nm d ->
  macro_identifier ty -> macro_identifier nm -> default_token d ->
  stops isspace d ->
  in_comment sc = false ->
  is_match re_comment_start (strip raw) = false ->
  scan_line rel (sc, st) raw
  = ({| current_comment := []; in_comment := false;
        line_count := line_count sc + 1 |},
     _process_parameter_definition ty nm d (current_comment sc) rel
       (line_count sc + 1) st).
Proof.
  intros Hraw Hty Hnm Hd Hfirst Hin Ho.
  pose proof (macro_line_groups ty nm d Hty Hnm Hd Hfirst) as Hm.
  rewrite <- Hraw in Hm.
  rewrite (scan_line_macro rel sc st raw Ho Hin Hm). reflexivity.
Qed.

Lemma plain_macro_line_is_recognised_witness :
  snd (scan_line "a.c" (scan_start, new_parser "out")
         "    PARAM_DEFINE_FLOAT(MC_ROLL_P, 6.5f);")
  = _process_parameter_definition "FLOAT" "MC_ROLL_P" "6.5f" [] "a.c" 1
      (new_parser "out").
Proof.
  refine (f_equal snd
            (plain_macro_line_is_recognised "a.c" scan_start
               (new_parser "out") "    PARAM_DEFINE_FLOAT(MC_ROLL_P, 6.5f);"
               "FLOAT" "MC_ROLL_P" "6.5f" eq_refl _ _ _ eq_refl eq_refl
               eq_refl)).
  - split; reflexivity.
  - split; reflexivity.
  - split; [discriminate | reflexivity].
Defined.

(** ** Where an entry of the scan comes from *)

Lemma built_entry_widen rel lo hi lo' hi' kv :
  (lo' <= lo)%Z -> (hi <= hi')%Z ->
  built_entry rel lo hi kv -> built_entry rel lo' hi' kv.
Proof.
  intros H1 H2 (ty & dflt & cl & n & Hn & H). exists ty, dflt, cl, n.
  split; [lia | exact H].
Qed.

Lemma scan_line_entries rel sc raw :
  exists kvs sc',
    Forall (built_entry rel (line_count sc) (line_count sc + 1)) kvs
    /\ line_count sc' = (line_count sc + 1)%Z
    /\ forall st,
         fst (scan_line rel (sc, st) raw) = sc'
         /\ parameters (snd (scan_line rel (sc, st) raw))
            = dict_update kvs (parameters st).
Proof.
  destruct (is_match re_comment_start (strip raw)) eqn:Eo.
  { eexists [], _. split; [constructor|]. split; [|intros st;
      rewrite scan_line_open by exact Eo; cbn [fst snd]; split; reflexivity].
    reflexivity. }
  destruct (in_comment sc) eqn:Ei.
  { eexists [], _. split; [constructor|]. split; [|intros st;
      rewrite scan_line_inside by assumption; cbn [fst snd];
      split; reflexivity].
    reflexivity. }
  destruct (search_groups re_param_define (strip raw)) as [gs|] eqn:Em.
  - destruct (re_param_define_groups _ _ Em)
      as (ty & nm & dflt & -> & Ht).
    destruct Ht as (pre & w1 & w2 & w3 & w4 & w5 & post & _ & _ & _ & _ & _ & _
                    & Hty & Hnm & Hd).
    destruct (build_parameter ty nm dflt (current_comment sc) rel
                (line_count sc + 1)) as [p|e] eqn:Eb.
    + eexists [(nm, p)], _. split.
      { constructor; [|constructor].
        exists ty, dflt, (current_comment sc), (line_count sc + 1)%Z.
        cbn [fst snd]. split; [lia|].
        split; [exact Hty|]. split; [exact Hnm|]. split; [exact Hd|].
        exact Eb. }
      split; [|intros st; rewrite (scan_line_macro rel sc st raw Eo Ei Em);
                cbn [fst snd nth]; unfold _process_parameter_definition;
                rewrite Eb; split; reflexivity].
      reflexivity.
    + eexists [], _. split; [constructor|].
      split; [|intros st; rewrite (scan_line_macro rel sc st raw Eo Ei Em);
                cbn [fst snd nth]; unfold _process_parameter_definition;
                rewrite Eb; split; reflexivity].
      reflexivity.
  - eexists [], _. split; [constructor|]. split; [|intros st;
      rewrite scan_line_other by assumption; cbn [fst snd]; split;
      reflexivity].
    reflexivity.
Qed.

Lemma scan_lines_entries rel lines :
  forall sc, exists kvs,
    Forall (built_entry rel (line_count sc)
              (line_count sc + Z.of_nat (List.length lines))) kvs
    /\ forall st,
         parameters (snd (scan_lines rel lines (sc, st)))
         = dict_update kvs (parameters st).
Proof.
  induction lines as [|l lines IH]; intros sc.
  - exists []. split; [constructor | reflexivity].
  - destruct (scan_line_entries rel sc l) as (k1 & sc' & F1 & Hc & H1).
    destruct (IH sc') as (k2 & F2 & H2).
    exists (k1 ++ k2). split.
    + apply Forall_app. split.
      * eapply Forall_impl; [|exact F1]. intros kv.
        apply built_entry_widen; cbn [List.length]; lia.
      * eapply Forall_impl; [|exact F2]. intros kv.
        apply built_entry_widen; cbn [List.length]; lia.
    + intros st. rewrite scan_lines_cons.
      destruct (H1 st) as [Hf Hp].
      destruct (scan_line rel (sc, st) l) as [sc1 st1].
      cbn [fst snd] in Hf, Hp. subst sc1.
      rewrite H2, Hp, (@dict_update_app ParameterMetadata). reflexivity.
Qed.

Lemma dict_update_lookup {V : Type} (k : str) (v : V) kvs :
  forall d,
    dict_get k (dict_update kvs d) = Some v ->
    In (k, v) kvs \/ dict_get k d = Some v.
Proof.
  induction kvs as [|[k0 v0] kvs IH]; intros d H; [right; exact H|].
  rewrite dict_update_cons in H. destruct (IH _ H) as [Hin|Hd].
  - left. right. exact Hin.
  - rewrite dict_get_set in Hd. destruct (str_eqb k k0) eqn:E.
    + apply str_eqb_eq in E. inversion Hd. subst. left. left. reflexivity.
    + right. exact Hd.
Qed.

(** X11.  Whatever a source file leaves under a name is either what was
    there before, or an entry made from a line of that file: it sits
    under its own name, type and name are macro identifiers, the default
    holds no space, comma or closing parenthesis, the file recorded is
    the path relative to the repository, the line recorded lies between 1
    and the number of lines of the file, both descriptions are texts, and
    there are no enum values. *)
Theorem entries_of_a_source_file
    (f : SourceFile) (text : str) (st : PState) (k : str)
    (p : ParameterMetadata) :
  content f = Ok text ->
  dict_get k (parameters (parse_source_file f st)) = Some p ->
  dict_get k (parameters st) = Some p
  \/ (name p = k /\ macro_identifier (name p) /\ macro_identifier (type p)
      /\ default_token (default p)
      /\ source_file p = Some (relative_path f)
      /\ (exists n, line_number p = Some n
                    /\ (1 <= n <= Z.of_nat (List.length (split_lines text)))%Z)
      /\ short_desc p <> None /\ long_desc p <> None /\ values p = []).
Proof.
  intros Hc Hg. unfold parse_source_file in Hg. rewrite Hc in Hg.
  destruct (scan_lines_entries (relative_path f) (split_lines text) scan_start)
    as (kvs & HF & Hk).
  rewrite Hk in Hg. apply dict_update_lookup in Hg.
  destruct Hg as [Hin|Hold]; [right | left; exact Hold].
  rewrite Forall_forall in HF.
  destruct (HF _ Hin) as (ty & dflt & cl & n & Hn & Hty & Hnm & Hd & Hb).
  cbn [fst snd] in Hnm, Hb.
  destruct (build_parameter_fields _ _ _ _ _ _ _ Hb)
    as (E1 & E2 & E3 & E4 & E5 & _ & _ & _ & _ & _ & _ & _ & E6 & E7 & E8).
  rewrite E1, E2, E3, E4, E5, E6, E7, E8.
  cbn [scan_start line_count] in Hn.
  split; [reflexivity|]. split; [exact Hnm|]. split; [exact Hty|].
  split; [exact Hd|]. split; [reflexivity|].
  split; [exists n; split; [reflexivity | lia]|].
  split; [discriminate|]. split; [discriminate | reflexivity].
Qed.

Lemma entries_of_a_source_file_witness :
  let f := {| src_path := "/px4/src/a.c"; relative_path := "src/a.c";
              content := Ok example_source |} in
  let p := {| name := "MY_PARAM"; type := "FLOAT"; default := "1.5";
              short_desc := Some ("Short desc" : str);
              long_desc := Some ("" : str);
              min_val := Some float_0; max_val := Some float_10;
              unit := None; decimal := None; group := "Test"; values := [];
              volatile := false; category := "Standard";
              source_file := Some ("src/a.c" : str);
              line_number := Some 7%Z |} in
  dict_get "MY_PARAM" (parameters (new_parser "out")) = None
  /\ source_file p = Some (relative_path f)
  /\ exists n, line_number p = Some n /\ (1 <= n <= 7)%Z.
Proof.
  intros f p.
  assert (Hp : dict_get "MY_PARAM"
                 (parameters (parse_source_file f (new_parser "out")))
               = Some p) by (vm_compute; reflexivity).
  destruct (entries_of_a_source_file f example_source (new_parser "out")
              "MY_PARAM" p eq_refl Hp)
    as [Hold|(_ & _ & _ & _ & Hs & Hn & _)]; [discriminate Hold|].
  split; [reflexivity|]. split; [exact Hs | exact Hn].
Defined.

Lemma scan_line_count rel sc st raw :
  line_count (fst (scan_line rel (sc, st) raw)) = (line_count sc + 1)%Z.
Proof.
  destruct (scan_line_entries rel sc raw) as (kvs & sc' & _ & Hc & H).
  destruct (H st) as [-> _]. exact Hc.
Qed.

Lemma scan_lines_count rel lines :
  forall sc st,
    line_count (fst (scan_lines rel lines (sc, st)))
    = (line_count sc + Z.of_nat (List.length lines))%Z.
Proof.
  induction lines as [|l lines IH]; intros sc st.
  - cbn. lia.
  - rewrite scan_lines_cons.
    pose proof (scan_line_count rel sc st l) as Hl.
    destruct (scan_line rel (sc, st) l) as [sc1 st1]. cbn [fst] in Hl.
    rewrite IH, Hl. cbn [List.length]. lia.
Qed.

(** X12.  The scanner counts every line of the file, comment lines and
    empty lines included, so the line number handed to the entry of a
    macro line is the 1-based position of that line in the file. *)
Theorem macro_line_number_is_its_position
    (rel : str) (before : list str) (raw : str) (gs : list str) (st : PState) :
  let at_line := scan_lines rel before (scan_start, st) in
  in_comment (fst at_line) = false ->
  macro_match raw gs ->
  snd (scan_lines rel (before ++ [raw]) (scan_start, st))
  = _process_parameter_definition (nth 0 gs []) (nth 1 gs []) (nth 2 gs [])
      (current_comment (fst at_line)) rel
      (Z.of_nat (List.length before) + 1) (snd at_line).
Proof.
  intros at_line Hin [Ho Hm].
  rewrite scan_lines_app. fold at_line.
  pose proof (scan_lines_count rel before scan_start st) as Hc.
  fold at_line in Hc. destruct at_line as [sc1 st1]. cbn [fst snd] in *.
  rewrite scan_lines_cons, (scan_line_macro rel sc1 st1 raw Ho Hin Hm).
  cbn [scan_lines fold_left snd]. rewrite Hc. reflexivity.
Qed.

Lemma macro_line_number_is_its_position_witness :
  snd (scan_lines "a.c"
         [ "" : str; "/**" : str; " * Speed" : str; " */" : str; "" : str;
           "PARAM_DEFINE_FLOAT(SPD, 1.0);" : str ]
         (scan_start, new_parser "out"))
  = _process_parameter_definition "FLOAT" "SPD" "1.0"
      ["* Speed" : str; "*/" : str] "a.c" 6 (new_parser "out").
Proof.
  exact (macro_line_number_is_its_position "a.c"
           [ "" : str; "/**" : str; " * Speed" : str; " */" : str; "" : str ]
           "PARAM_DEFINE_FLOAT(SPD, 1.0);"
           [ "FLOAT" : str; "SPD" : str; "1.0" : str ] (new_parser "out")
           eq_refl (conj eq_refl eq_refl)).
Defined.

(** ** Which files are scanned *)

Lemma scanned_files_are_aux repo f :
  In f (scanned_files repo) ->
  In f (tree repo) /\ contains "build" (src_path f) = false.
Proof.
  unfold scanned_files, rglob. rewrite in_flat_map.
  intros (ext & He & Hin). apply filter_In in Hin. destruct Hin as [Hin Hb].
  apply filter_In in Hin. destruct Hin as [Hin _]. split; [exact Hin|].
  destruct (contains "build" (src_path f)); [discriminate Hb | reflexivity].
Qed.


Lemma starts_with_prefix p :
  forall s, starts_with p s = true -> exists r, s = p ++ r.
Proof.
  induction p as [|a p IH]; intros s H; [exists s; reflexivity|].
  destruct s as [|b s]; [discriminate|]. cbn in H.
  apply andb_true_iff in H. destruct H as [Hab H].
  apply Ascii.eqb_eq in Hab. subst b.
  destruct (IH _ H) as [r ->]. exists r. reflexivity.
Qed.

Lemma extension_unique x y p :
  In x source_extensions -> In y source_extensions ->
  ends_with x p = true -> ends_with y p = true -> x = y.
Proof.
  unfold ends_with. intros Hx Hy Ex Ey.
  apply starts_with_prefix in Ex, Ey.
  destruct Ex as [r1 E1], Ey as [r2 E2]. rewrite E1 in E2. clear E1.
  cbn in Hx, Hy.
  destruct Hx as [<-|[<-|[<-|[<-|[]]]]];
    destruct Hy as [<-|[<-|[<-|[<-|[]]]]];
    try reflexivity; cbn in E2; discriminate E2.
Qed.

Lemma NoDup_flat_map_disjoint {A B : Type} (h : A -> list B) l :
  NoDup l -> (forall x, NoDup (h x)) ->
  (forall x y b, In x l -> In y l -> In b (h x) -> In b (h y) -> x = y) ->
  NoDup (flat_map h l).
Proof.
  induction 1 as [|x l Hx Hl IH]; intros Hh Hd; cbn; [constructor|].
  apply NoDup_app.
  - apply Hh.
  - apply IH; [exact Hh|]. intros a b c Ha Hb. apply Hd; right; assumption.
  - intros b Hb Hin. apply in_flat_map in Hin. destruct Hin as (y & Hy & Hby).
    apply Hx. rewrite (Hd x y b (or_introl eq_refl) (or_intror Hy) Hb Hby).
    exact Hy.
Qed.

(** X14.  No file is scanned twice: when the tree lists every path once,
    so does the list of scanned files, as no path ends in two of the four
    extensions. *)
Theorem no_file_is_scanned_twice (repo : Repository) :
  NoDup (tree repo) -> NoDup (scanned_files repo).
Proof.
  intros Ht. unfold scanned_files. apply NoDup_flat_map_disjoint.
  - repeat constructor; cbn; intuition discriminate.
  - intros ext. apply NoDup_filter, NoDup_filter, Ht.
  - intros x y f Hx Hy Hfx Hfy.
    apply filter_In in Hfx, Hfy. destruct Hfx as [Hfx _], Hfy as [Hfy _].
    unfold rglob in Hfx, Hfy. apply filter_In in Hfx, Hfy.
    exact (extension_unique x y (src_path f) Hx Hy (proj2 Hfx) (proj2 Hfy)).
Qed.

Lemma no_file_is_scanned_twice_witness :
  let file p := {| src_path := p; relative_path := p; content := Ok [] |} in
  NoDup (scanned_files
           {| repo_path := "."; injected := None;
              tree := [ file ("a.c" : str); file ("a.h" : str);
                        file ("b.cpp" : str); file ("notes.txt" : str) ];
              output_file := "out/px4_parameters.json";
              write_error := None |}).
Proof.
  intros file. apply no_file_is_scanned_twice. cbn [tree].
  repeat constructor; cbn; intuition discriminate.
Defined.

Lemma starts_with_app b : forall x r,
  starts_with b x = true -> starts_with b (x ++ r) = true.
Proof.
  induction b as [|a b IH]; intros x r H; [apply starts_with_nil|].
  destruct x as [|c x]; [discriminate|]. cbn in H |- *.
  apply andb_true_iff in H. destruct H as [-> H]. cbn. apply IH, H.
Qed.

Lemma contains_app b p r : contains b p = true -> contains b (p ++ r) = true.
Proof.
  induction p as [|a p IH]; cbn.
  - rewrite orb_false_r. intros H. destruct b; [apply contains_nil|].
    discriminate H.
  - intros H. apply orb_true_iff in H. destruct H as [H|H].
    + change (a :: p ++ r) with ((a :: p) ++ r).
      rewrite (starts_with_app b (a :: p) r H). reflexivity.
    + rewrite (IH H). apply orb_true_r.
Qed.

(** X15.  The test for build output looks at the whole path, the part up
    to the repository included: when the path of the repository itself
    holds the text [build], no file at all is scanned and the scan leaves
    the parser as it was. *)
Theorem repository_under_build_is_not_scanned
    (repo : Repository) (st : PState) :
  contains "build" (repo_path repo) = true ->
  (forall f, In f (tree repo) ->
             starts_with (repo_path repo) (src_path f) = true) ->
  scanned_files repo = [] /\ scan_sources repo st = st.
Proof.
  intros Hb Hunder.
  assert (Hnil : scanned_files repo = []).
  { destruct (scanned_files repo) as [|f l] eqn:E; [reflexivity|].
    assert (Hin : In f (scanned_files repo)) by (rewrite E; left; reflexivity).
    apply scanned_files_are_aux in Hin. exfalso.
    destruct Hin as (Hin & Hc).
    destruct (starts_with_prefix _ _ (Hunder f Hin)) as [r Hr].
    rewrite Hr, (contains_app _ _ r Hb) in Hc. discriminate Hc. }
  split; [exact Hnil|].
  rewrite scan_sources_scanned_files, Hnil. reflexivity.
Qed.

Lemma repository_under_build_is_not_scanned_witness :
  let repo :=
    {| repo_path := "/home/builder/PX4-Autopilot"; injected := None;
       tree := [ {| src_path := "/home/builder/PX4-Autopilot/src/a.c";
                    relative_path := "src/a.c";
                    content := Ok ("PARAM_DEFINE_INT32(A, 1);" : str) |} ];
       output_file := "out/px4_parameters.json"; write_error := None |} in
  scanned_files repo = []
  /\ scan_sources repo (new_parser "out") = new_parser "out".
Proof.
  intros repo.
  apply (repository_under_build_is_not_scanned repo (new_parser "out")).
  - reflexivity.
  - intros f [<-|[]]. reflexivity.
Defined.

(** ** The ingestor as a sequence of assignments *)

Lemma parse_xml_parameters_fold group_name params :
  forall st,
    parameters
      (fold_left
         (fun st param =>
            match _parse_parameter param group_name st with
            | (st1, Some metadata) =>
                logged
                  (LogDebug ("Parsed parameter from XML: " ++ name metadata))
                  {| parameters :=
                       dict_set (name metadata) metadata (parameters st1);
                     log := log st1 |}
            | (st1, None) => st1
            end)
         params st)
    = dict_update (flat_map (xml_parameter_assignment group_name) params)
        (parameters st).
Proof.
  induction params as [|param params IH]; intros st; [reflexivity|].
  cbn [fold_left flat_map]. rewrite IH, (@dict_update_app ParameterMetadata).
  f_equal. unfold _parse_parameter, xml_parameter_assignment.
  destruct (parse_parameter_body param group_name) as [[m|]|e]; reflexivity.
Qed.

Lemma parse_xml_groups_fold groups :
  forall st,
    parameters (fold_left parse_xml_group groups st)
    = dict_update (flat_map xml_group_assignments groups) (parameters st).
Proof.
  induction groups as [|g groups IH]; intros st; [reflexivity|].
  cbn [fold_left flat_map]. rewrite IH, (@dict_update_app ParameterMetadata).
  f_equal. apply parse_xml_parameters_fold.
Qed.

Lemma ingest_xml_assigns repo st :
  parameters (ingest_xml repo st)
  = dict_update (ingest_assignments repo) (parameters st).
Proof.
  unfold ingest_xml, ingest_assignments.
  destruct (injected repo) as [[root|e]|]; try reflexivity.
  unfold parse_xml_file, parse_xml_try. rewrite parse_xml_groups_fold.
  reflexivity.
Qed.

(** X16.  On a document that parses, the ingestor does to the mapping
    exactly the assignments of the parameter elements that have a name and
    parse, group by group in document order, each under its name; an
    element without a name, or one whose parsing raises, assigns nothing
    and does not stop the others. *)
Theorem xml_ingestion_is_assignments
    (xml_path : str) (root : Element) (st : PState) :
  parameters (parse_xml_file xml_path (Ok root) st)
  = dict_update (xml_assignments root) (parameters st).
Proof.
  unfold parse_xml_file, parse_xml_try. apply parse_xml_groups_fold.
Qed.

(** ** Which definition of a name the pipeline keeps *)

Lemma parse_source_file_lookup f st k :
  dict_get k (parameters (parse_source_file f st))
  = match dict_get k (file_entries f) with
    | Some v => Some v
    | None => dict_get k (parameters st)
    end.
Proof.
  destruct (parse_source_file_updates f) as (kvs & _ & H).
  unfold file_entries. rewrite !H. cbn [parameters].
  apply dict_get_update.
Qed.

Lemma last_definition_from k files :
  forall acc,
    fold_left
      (fun acc f =>
         match dict_get k (file_entries f) with
         | Some v => Some v
         | None => acc
         end)
      files acc
    = match last_definition k files with
      | Some v => Some v
      | None => acc
      end.
Proof.
  unfold last_definition.
  induction files as [|f files IH]; intros acc; [reflexivity|].
  cbn [fold_left]. rewrite IH. rewrite (IH (match dict_get k (file_entries f)
                                             with Some v => Some v
                                                | None => None end)).
  destruct (fold_left _ files None); [reflexivity|].
  destruct (dict_get k (file_entries f)); reflexivity.
Qed.

Lemma scan_files_lookup k files :
  forall st,
    dict_get k
      (parameters (fold_left (fun st f => parse_source_file f st) files st))
    = match last_definition k files with
      | Some v => Some v
      | None => dict_get k (parameters st)
      end.
Proof.
  induction files as [|f files IH]; intros st; [reflexivity|].
  cbn [fold_left]. rewrite IH, parse_source_file_lookup.
  unfold last_definition at 2. cbn [fold_left].
  rewrite last_definition_from.
  destruct (last_definition k files); [reflexivity|].
  destruct (dict_get k (file_entries f)); reflexivity.
Qed.

(** X17.  For every name, the final mapping holds the entry of the last
    scanned file that defines it (files in the order of the extensions
    [.c], [.cpp], [.h], [.hpp], and within one extension in the order the
    tree is walked); a name no scanned file defines keeps what the
    ingestor left, which is the last assignment the document makes to it,
    or else what the mapping held at the start. *)
Theorem precedence_of_definitions
    (repo : Repository) (st : PState) (k : str) :
  dict_get k (parameters (fst (parse_all repo st)))
  = match last_definition k (scanned_files repo) with
    | Some v => Some v
    | None =>
        match dict_get k (dict_update (ingest_assignments repo) []) with
        | Some v => Some v
        | None => dict_get k (parameters st)
        end
    end.
Proof.
  unfold parse_all. rewrite save_parameters_parameters.
  rewrite scan_sources_scanned_files, scan_files_lookup.
  cbn [logged parameters]. rewrite ingest_xml_assigns. cbn [parameters].
  rewrite dict_get_update. reflexivity.
Qed.

(** ** What every entry of the final mapping looks like *)

Lemma parse_source_file_entries f :
  exists kvs,
    Forall scanned_entry kvs
    /\ forall st,
         parameters (parse_source_file f st) = dict_update kvs (parameters st).
Proof.
  unfold parse_source_file. destruct (content f) as [text0|e].
  - destruct (scan_lines_entries (relative_path f) (split_lines text0)
                scan_start) as (kvs & HF & H).
    exists kvs. split; [|exact H].
    eapply Forall_impl; [|exact HF]. intros kv Hkv.
    exists (relative_path f), (line_count scan_start),
      (line_count scan_start + Z.of_nat (List.length (split_lines text0)))%Z.
    split; [cbn; lia | exact Hkv].
  - exists []. split; [constructor | reflexivity].
Qed.

Lemma scan_files_entries files :
  exists kvs,
    Forall scanned_entry kvs
    /\ forall st,
         parameters (fold_left (fun st f => parse_source_file f st) files st)
         = dict_update kvs (parameters st).
Proof.
  induction files as [|f files IH].
  - exists []. split; [constructor | reflexivity].
  - destruct (parse_source_file_entries f) as (k1 & F1 & H1).
    destruct IH as (k2 & F2 & H2).
    exists (k1 ++ k2). split; [apply Forall_app; split; assumption|].
    intros st. cbn [fold_left].
    rewrite H2, H1, (@dict_update_app ParameterMetadata). reflexivity.
Qed.

Lemma xml_assignments_ingested root :
  Forall ingested_entry (xml_assignments root).
Proof.
  unfold xml_assignments. apply Forall_flat_map, Forall_forall.
  intros g _. unfold xml_group_assignments.
  apply Forall_flat_map, Forall_forall. intros param _.
  unfold xml_parameter_assignment.
  destruct (parse_parameter_body param _) as [[m|]|e] eqn:E;
    constructor; [|constructor].
  exists param, (dict_get_default (V:=str) "name" "Uncategorized" (attrib g)).
  split; [exact E | reflexivity].
Qed.

Lemma ingest_assignments_ingested repo :
  Forall ingested_entry (ingest_assignments repo).
Proof.
  unfold ingest_assignments.
  destruct (injected repo) as [[root|e]|]; try constructor.
  apply xml_assignments_ingested.
Qed.

Lemma xml_optional_field_provenance {A : Type} path e
    (conv : option str -> result A) update m m' :
  (forall q a, name (update q a) = name q
               /\ source_file (update q a) = source_file q
               /\ line_number (update q a) = line_number q) ->
  xml_optional_field path e conv update m = Ok m' ->
  name m' = name m /\ source_file m' = source_file m
  /\ line_number m' = line_number m.
Proof.
  intros Hu H. apply xml_optional_field_Ok in H.
  destruct (optional_child path e conv); subst m'; [apply Hu | auto].
Qed.

Lemma ingested_entry_provenance kv :
  ingested_entry kv ->
  name (snd kv) = fst kv /\ fst kv <> []
  /\ source_file (snd kv) = None /\ line_number (snd kv) = None.
Proof.
  destruct kv as [k m]. cbn [fst snd].
  intros (param & g & H & Hk). cbn [fst snd] in H, Hk. subst k.
  unfold parse_parameter_body in H.
  destruct (dict_get "name" (attrib param)) as [[|a nm]|];
    try discriminate H.
  apply bind_Ok in H. destruct H as (m1 & H1 & H).
  apply bind_Ok in H. destruct H as (m2 & H2 & H).
  apply bind_Ok in H. destruct H as (m3 & H3 & H).
  apply bind_Ok in H. destruct H as (m4 & H4 & H).
  apply bind_Ok in H. destruct H as (m5 & H5 & H6).
  inversion H6 as [E6]. clear H6. subst m.
  apply xml_optional_field_provenance in H1, H2, H3, H4;
    try (intros q x; repeat split; reflexivity).
  assert (E5 : name m5 = name m4 /\ source_file m5 = source_file m4
               /\ line_number m5 = line_number m4).
  { destruct (elem_find "values" param); [|inversion H5; auto].
    apply bind_Ok in H5. destruct H5 as (vs & _ & H5). inversion H5. auto. }
  destruct E5 as (N5 & S5 & L5).
  destruct H1 as (N1 & S1 & L1), H2 as (N2 & S2 & L2),
    H3 as (N3 & S3 & L3), H4 as (N4 & S4 & L4).
  rewrite N5, N4, N3, N2, N1, S5, S4, S3, S2, S1, L5, L4, L3, L2, L1.
  cbn. repeat split; try reflexivity. discriminate.
Qed.

Lemma scanned_entry_provenance kv :
  scanned_entry kv ->
  name (snd kv) = fst kv /\ fst kv <> []
  /\ exists rel n, source_file (snd kv) = Some rel
                   /\ line_number (snd kv) = Some n /\ (1 <= n)%Z.
Proof.
  intros (rel & lo & hi & Hlo & ty & dflt & cl & n & Hn & _ & Hnm & _ & Hb).
  destruct (build_parameter_fields _ _ _ _ _ _ _ Hb)
    as (E1 & _ & _ & _ & _ & _ & _ & _ & _ & _ & _ & _ & _ & E7 & E8).
  split; [exact E1|]. split.
  - intros E. rewrite E in Hnm. exact Hnm.
  - exists rel, n. repeat split; try assumption. lia.
Qed.

(** X18.  Run on a fresh parser, the pipeline ends with a mapping in which
    every entry sits under its own name, no name is empty, and every
    entry either has neither a source file nor a line number (it comes
    from the XML document) or has both, the line being at least 1 (it
    comes from a source file). *)
Theorem final_entries_have_consistent_provenance
    (repo : Repository) (output_dir k : str) (p : ParameterMetadata) :
  dict_get k (parameters (fst (parse_all repo (new_parser output_dir))))
  = Some p ->
  name p = k /\ k <> []
  /\ ((source_file p = None /\ line_number p = None)
      \/ exists rel n, source_file p = Some rel /\ line_number p = Some n
                       /\ (1 <= n)%Z).
Proof.
  unfold parse_all. rewrite save_parameters_parameters.
  rewrite scan_sources_scanned_files.
  destruct (scan_files_entries (scanned_files repo)) as (ks & Fs & Hs).
  rewrite Hs. cbn [logged parameters]. rewrite ingest_xml_assigns.
  cbn [logged parameters new_parser]. intros H.
  apply dict_update_lookup in H. destruct H as [Hin|H].
  - rewrite Forall_forall in Fs.
    destruct (scanned_entry_provenance _ (Fs _ Hin)) as (E1 & E2 & E3).
    cbn [fst snd] in *. auto.
  - apply dict_update_lookup in H. destruct H as [Hin|H]; [|discriminate H].
    pose proof (ingest_assignments_ingested repo) as Fi.
    rewrite Forall_forall in Fi.
    destruct (ingested_entry_provenance _ (Fi _ Hin)) as (E1 & E2 & E3).
    cbn [fst snd] in *. auto.
Qed.

Lemma final_entries_have_consistent_provenance_witness :
  exists p,
    dict_get "SPD" (parameters (fst (parse_all repo_speed (new_parser "out"))))
    = Some p
    /\ name p = list_ascii_of_string "SPD".
Proof.
  eexists. split; [vm_compute; reflexivity|].
  refine (proj1 (final_entries_have_consistent_provenance repo_speed "out"
                   "SPD" _ _)).
  vm_compute. reflexivity.
Defined.

(** ** The order of the names *)

Lemma dict_keys_update {V : Type} (kvs : list (str * V)) :
  forall d, exists new, dict_keys (dict_update kvs d) = dict_keys d ++ new.
Proof.
  induction kvs as [|[k v] kvs IH]; intros d.
  - exists []. rewrite app_nil_r. reflexivity.
  - rewrite dict_update_cons. destruct (IH (dict_set k v d)) as [new H].
    rewrite H, dict_keys_set. destruct (dict_mem k d).
    + exists new. reflexivity.
    + exists (k :: new). rewrite <- app_assoc. reflexivity.
Qed.

(** X19.  Names keep the place of their first definition: the ingestor
    and the scan only append names to the mapping, so the names the
    mapping held come first, then those the XML document adds, then those
    only the source files define; a definition that replaces an entry
    leaves its name where it stands. *)
Theorem names_keep_their_first_place (repo : Repository) (st : PState) :
  exists from_xml from_sources,
    dict_keys (parameters (ingest_xml repo st))
    = dict_keys (parameters st) ++ from_xml
    /\ dict_keys (parameters (fst (parse_all repo st)))
       = dict_keys (parameters st) ++ from_xml ++ from_sources.
Proof.
  destruct (dict_keys_update (ingest_assignments repo) (parameters st))
    as [from_xml Hx].
  destruct (scan_files_entries (scanned_files repo)) as (ks & _ & Hs).
  destruct (dict_keys_update ks
              (dict_update (ingest_assignments repo) (parameters st)))
    as [from_sources Hsrc].
  exists from_xml, from_sources. split.
  - rewrite ingest_xml_assigns. exact Hx.
  - unfold parse_all. rewrite save_parameters_parameters.
    rewrite scan_sources_scanned_files, Hs. cbn [logged parameters].
    rewrite ingest_xml_assigns. cbn [logged parameters].
    rewrite Hsrc, Hx, <- app_assoc. reflexivity.
Qed.

(** ** Entries made from XML *)

Lemma enum_values_spec vs :
  forall acc,
    enum_values vs acc
    = if forallb (fun v => dict_mem "code" (attrib v)) vs
      then Ok (dict_update (map enum_item vs) acc)
      else Raise (KeyError "code").
Proof.
  induction vs as [|v vs IH]; intros acc; [reflexivity|].
  cbn [enum_values forallb map]. unfold dict_mem, enum_item at 1.
  unfold dict_get_default.
  destruct (dict_get "code" (attrib v)) as [code|]; [|reflexivity].
  cbn [andb]. rewrite IH, dict_update_cons. reflexivity.
Qed.

(** X20.  The enum values of a parameter are the assignments of its
    [value] elements in document order, each text under its code, so a
    repeated code keeps its first place and its last text; one [value]
    element without a [code] makes the whole comprehension raise
    [KeyError], whatever the other elements hold. *)
Theorem enum_values_are_assignments
    (vs : list Element) (acc : pydict (option str)) :
  enum_values vs acc
  = if forallb (fun v => dict_mem "code" (attrib v)) vs
    then Ok (dict_update (map enum_item vs) acc)
    else Raise (KeyError "code").
Proof. apply enum_values_spec. Qed.

Lemma xml_entry_fixed_fields param_elem group_name metadata :
  parse_parameter_body param_elem group_name = Ok (Some metadata) ->
  dict_get "name" (attrib param_elem) = Some (name metadata)
  /\ name metadata <> []
  /\ type metadata = dict_get_default (V:=str) "type" "" (attrib param_elem)
  /\ default metadata
     = dict_get_default (V:=str) "default" "" (attrib param_elem)
  /\ short_desc metadata = child_text "short_desc" param_elem
  /\ long_desc metadata = child_text "long_desc" param_elem
  /\ group metadata = group_name
  /\ volatile metadata
     = match dict_get "volatile" (attrib param_elem) with
       | Some v => str_eqb v "true"
       | None => false
       end
  /\ category metadata = list_ascii_of_string "Standard"
  /\ source_file metadata = None /\ line_number metadata = None
  /\ match elem_find "values" param_elem with
     | Some values_elem =>
         enum_values (elem_findall "value" values_elem) []
         = Ok (values metadata)
     | None => values metadata = []
     end.
Proof.
  unfold parse_parameter_body.
  destruct (dict_get "name" (attrib param_elem)) as [[|a nm]|];
    try (intros H; discriminate H).
  intros H.
  apply bind_Ok in H. destruct H as (m1 & H1 & H).
  apply bind_Ok in H. destruct H as (m2 & H2 & H).
  apply bind_Ok in H. destruct H as (m3 & H3 & H).
  apply bind_Ok in H. destruct H as (m4 & H4 & H).
  apply bind_Ok in H. destruct H as (m5 & H5 & H6).
  inversion H6. subst metadata. clear H6.
  apply xml_optional_field_Ok in H1, H2, H3, H4.
  destruct (optional_child "min" param_elem float_of_text);
    destruct (optional_child "max" param_elem float_of_text);
    destruct (optional_child "unit" param_elem (fun t => Ok t));
    destruct (optional_child "decimal" param_elem int_of_text);
    subst m4 m3 m2 m1;
    (destruct (elem_find "values" param_elem) as [ve|];
     [apply bind_Ok in H5; destruct H5 as (vs & Hv & H5); inversion H5;
      subst m5; cbn
     |inversion H5; subst m5; cbn]);
    repeat split; try reflexivity; try discriminate; exact Hv.
Qed.

(** X21.  An entry made from a parameter element takes its name, type and
    default from the attributes (type and default empty when absent, the
    name never empty), its group from the enclosing group, its
    descriptions from the children of that name (empty text when the
    child is absent), is volatile only when the attribute is literally
    [true], has category "Standard" and neither source file nor line
    number; [min], [max], [unit] and [decimal] are read from the child of
    that name only when that child has sub-elements. *)
Theorem xml_entry_fields
    (param_elem : Element) (group_name : str) (metadata : ParameterMetadata) :
  parse_parameter_body param_elem group_name = Ok (Some metadata) ->
  dict_get "name" (attrib param_elem) = Some (name metadata)
  /\ name metadata <> []
  /\ type metadata = dict_get_default (V:=str) "type" "" (attrib param_elem)
  /\ default metadata
     = dict_get_default (V:=str) "default" "" (attrib param_elem)
  /\ short_desc metadata = child_text "short_desc" param_elem
  /\ long_desc metadata = child_text "long_desc" param_elem
  /\ group metadata = group_name
  /\ volatile metadata
     = match dict_get "volatile" (attrib param_elem) with
       | Some v => str_eqb v "true"
       | None => false
       end
  /\ category metadata = list_ascii_of_string "Standard"
  /\ source_file metadata = None /\ line_number metadata = None
  /\ min_val metadata = optional_child "min" param_elem float_of_text
  /\ max_val metadata = optional_child "max" param_elem float_of_text
  /\ unit metadata
     = match optional_child "unit" param_elem (fun t => Ok t) with
       | Some t => t
       | None => None
       end
  /\ decimal metadata = optional_child "decimal" param_elem int_of_text.
Proof.
  intros H.
  destruct (xml_entry_fixed_fields _ _ _ H)
    as (F1 & F2 & F3 & F4 & F5 & F6 & F7 & F8 & F9 & F10 & F11 & _).
  destruct (@xml_entry_optional_fields _ _ _ H) as (O1 & O2 & O3 & O4).
  repeat split; assumption.
Qed.

Lemma xml_entry_fields_witness :
  let m := {| name := "SPD"; type := "FLOAT"; default := "1.0";
              short_desc := Some ("Speed" : str);
              long_desc := Some ("" : str);
              min_val := None; max_val := None; unit := None;
              decimal := None; group := "Nav"; values := [];
              volatile := false; category := "Standard";
              source_file := None; line_number := None |} in
  min_val m = optional_child "min" example_parameter float_of_text
  /\ group m = list_ascii_of_string "Nav"
  /\ source_file m = None.
Proof.
  intros m.
  destruct (xml_entry_fields example_parameter "Nav" m eq_refl)
    as (_ & _ & _ & _ & _ & _ & Hg & _ & _ & Hs & _ & Hmin & _).
  split; [exact Hmin|]. split; [exact Hg | exact Hs].
Defined.

(** *** XML elements that are skipped with an error *)

Lemma xml_optional_field_Raise {A : Type} path e
    (conv : option str -> result A) update m ex :
  xml_optional_field path e conv update m = Raise ex ->
  bad_optional_child path e conv.
Proof.
  unfold xml_optional_field, bad_optional_child.
  destruct (elem_find path e) as [child|]; [|discriminate].
  destruct (elem_bool child) eqn:Eb; [|discriminate].
  destruct (conv (text child)) as [v|e'] eqn:Ec; cbn [bind];
    intros H; inversion H. subst e'. exists child, ex. auto.
Qed.

Lemma xml_optional_field_not_bad {A : Type} path e
    (conv : option str -> result A) update m m' :
  xml_optional_field path e conv update m = Ok m' ->
  ~ bad_optional_child path e conv.
Proof.
  unfold xml_optional_field, bad_optional_child.
  intros H (child & ex & Hf & Hb & Hc). rewrite Hf, Hb, Hc in H.
  discriminate H.
Qed.

Lemma forallb_false {A : Type} (f : A -> bool) l :
  forallb f l = false -> exists x, In x l /\ f x = false.
Proof.
  induction l as [|x l IH]; cbn; [discriminate|].
  destruct (f x) eqn:E; cbn.
  - intros H. destruct (IH H) as (y & Hy & Hf). exists y. auto.
  - intros _. exists x. auto.
Qed.

Lemma values_Raise param_elem (m : ParameterMetadata) ex :
  match elem_find "values" param_elem with
  | Some values_elem =>
      vs <- enum_values (elem_findall "value" values_elem) [] ;;
      Ok (set_values m vs)
  | None => Ok m
  end = Raise ex ->
  value_without_code param_elem.
Proof.
  unfold value_without_code.
  destruct (elem_find "values" param_elem) as [ve|]; [|discriminate].
  rewrite enum_values_spec.
  destruct (forallb _ (elem_findall "value" ve)) eqn:E; [discriminate|].
  intros _. apply forallb_false in E. destruct E as (v & Hin & Hv).
  exists ve, v. split; [reflexivity|]. split; [exact Hin|].
  unfold dict_mem in Hv. destruct (dict_get "code" (attrib v));
    [discriminate | reflexivity].
Qed.

Lemma values_Ok param_elem (m m' : ParameterMetadata) :
  match elem_find "values" param_elem with
  | Some values_elem =>
      vs <- enum_values (elem_findall "value" values_elem) [] ;;
      Ok (set_values m vs)
  | None => Ok m
  end = Ok m' ->
  ~ value_without_code param_elem.
Proof.
  intros H (ve & v & Hf & Hin & Hc). rewrite Hf, enum_values_spec in H.
  assert (E : forallb (fun v => dict_mem "code" (attrib v))
                (elem_findall "value" ve) = false).
  { destruct (forallb _ (elem_findall "value" ve)) eqn:E; [|reflexivity].
    rewrite forallb_forall in E. specialize (E v Hin).
    unfold dict_mem in E. rewrite Hc in E. discriminate E. }
  rewrite E in H. discriminate H.
Qed.

(** X22.  A parameter element is skipped with an error exactly when it
    has a non-empty name and either a [min], [max] or [decimal] child
    with sub-elements whose text does not convert (a missing text
    included), or a [values] child with a [value] element that has no
    [code]; a [unit] child never makes it fail. *)
Theorem xml_parameter_dropped_iff (param_elem : Element) (group_name : str) :
  (exists ex, parse_parameter_body param_elem group_name = Raise ex)
  <-> (exists a nm, dict_get "name" (attrib param_elem) = Some (a :: nm))
      /\ (bad_optional_child "min" param_elem float_of_text
          \/ bad_optional_child "max" param_elem float_of_text
          \/ bad_optional_child "decimal" param_elem int_of_text
          \/ value_without_code param_elem).
Proof.
  unfold parse_parameter_body. split.
  - intros [ex H].
    destruct (dict_get "name" (attrib param_elem)) as [[|a nm]|];
      try discriminate H.
    split; [exists a, nm; reflexivity|].
    apply bind_Raise in H. destruct H as [H|(m1 & _ & H)].
    { left. exact (xml_optional_field_Raise _ _ _ _ _ _ H). }
    apply bind_Raise in H. destruct H as [H|(m2 & _ & H)].
    { right. left. exact (xml_optional_field_Raise _ _ _ _ _ _ H). }
    apply bind_Raise in H. destruct H as [H|(m3 & _ & H)].
    { apply xml_optional_field_Raise in H.
      destruct H as (c & e & _ & _ & Hc). discriminate Hc. }
    apply bind_Raise in H. destruct H as [H|(m4 & _ & H)].
    { right. right. left. exact (xml_optional_field_Raise _ _ _ _ _ _ H). }
    apply bind_Raise in H. destruct H as [H|(m5 & _ & H)]; [|discriminate H].
    right. right. right. exact (values_Raise _ _ _ H).
  - intros [(a & nm & Hn) Hbad]. rewrite Hn.
    destruct (xml_optional_field "min" param_elem float_of_text set_min_val _)
      as [m1|e1] eqn:E1; cbn [bind]; [|eexists; reflexivity].
    destruct (xml_optional_field "max" param_elem float_of_text set_max_val _)
      as [m2|e2] eqn:E2; cbn [bind]; [|eexists; reflexivity].
    destruct (xml_optional_field "unit" param_elem (fun t => Ok t) set_unit _)
      as [m3|e3] eqn:E3; cbn [bind]; [|eexists; reflexivity].
    destruct (xml_optional_field "decimal" param_elem int_of_text
                set_decimal _)
      as [m4|e4] eqn:E4; cbn [bind]; [|eexists; reflexivity].
    destruct (match elem_find "values" param_elem with
              | Some values_elem =>
                  vs <- enum_values (elem_findall "value" values_elem) [] ;;
                  Ok (set_values m4 vs)
              | None => Ok m4
              end) as [m5|e5] eqn:E5; cbn [bind]; [|eexists; reflexivity].
    exfalso. destruct Hbad as [Hb|[Hb|[Hb|Hb]]].
    + exact (xml_optional_field_not_bad _ _ _ _ _ _ E1 Hb).
    + exact (xml_optional_field_not_bad _ _ _ _ _ _ E2 Hb).
    + exact (xml_optional_field_not_bad _ _ _ _ _ _ E4 Hb).
    + exact (values_Ok _ _ _ E5 Hb).
Qed.

(** ** A comment on one line *)

(** X23.  A line that holds the comment opener puts the scanner inside a
    comment even when the same line closes the comment: the line after it
    is not acted on but buffered, so a macro line right after a one-line
    documentation comment gives no entry. *)
Theorem line_after_comment_opener_is_buffered
    (rel : str) (sc : Scanner) (st : PState) (opener next : str) :
  is_match re_comment_start (strip opener) = true ->
  is_match re_comment_start (strip next) = false ->
  scan_lines rel [opener; next] (sc, st)
  = ({| current_comment := [strip next];
        in_comment := negb (contains "*/" (strip next));
        line_count := line_count sc + 1 + 1 |}, st).
Proof.
  intros Ho Hn. rewrite !scan_lines_cons.
  rewrite (scan_line_open rel sc st opener Ho).
  rewrite scan_line_inside by (exact Hn || reflexivity). reflexivity.
Qed.

Lemma line_after_comment_opener_is_buffered_witness :
  scan_lines "a.c"
    [ "/** Maximum speed */" : str; "PARAM_DEFINE_FLOAT(SPD_MAX, 9.0);" : str ]
    (scan_start, new_parser "out")
  = ({| current_comment := ["PARAM_DEFINE_FLOAT(SPD_MAX, 9.0);" : str];
        in_comment := true; line_count := 2 |}, new_parser "out").
Proof.
  exact (line_after_comment_opener_is_buffered "a.c" scan_start
           (new_parser "out") "/** Maximum speed */"
           "PARAM_DEFINE_FLOAT(SPD_MAX, 9.0);" eq_refl eq_refl).
Defined.

(** ** Blanks around a source line *)

Lemma lstrip_by_blanks f w s :
  forallb f w = true -> lstrip_by f (w ++ s) = lstrip_by f s.
Proof.
  induction w as [|a w IH]; [reflexivity|]. cbn.
  intros H. apply andb_true_iff in H. destruct H as [-> H]. apply IH, H.
Qed.

Lemma lstrip_by_all f w : forallb f w = true -> lstrip_by f w = [].
Proof.
  intros H. rewrite <- (app_nil_r w), lstrip_by_blanks by exact H.
  reflexivity.
Qed.

Lemma forallb_rev {A : Type} (f : A -> bool) l :
  forallb f l = true -> forallb f (rev l) = true.
Proof.
  intros H. apply forallb_forall. intros x Hx. apply in_rev in Hx.
  exact (proj1 (forallb_forall f l) H x Hx).
Qed.

Lemma rstrip_by_blanks f s w :
  forallb f w = true -> rstrip_by f (s ++ w) = rstrip_by f s.
Proof.
  intros H. unfold rstrip_by. rewrite rev_app_distr.
  rewrite lstrip_by_blanks by (apply forallb_rev, H). reflexivity.
Qed.

Lemma strip_by_blanks f w1 s w2 :
  forallb f w1 = true -> forallb f w2 = true ->
  strip_by f (w1 ++ s ++ w2) = strip_by f s.
Proof.
  intros H1 H2. unfold strip_by. rewrite lstrip_by_blanks by exact H1.
  induction s as [|a s IH]; cbn [app lstrip_by].
  - rewrite (lstrip_by_all f w2 H2). reflexivity.
  - destruct (f a); [exact IH|].
    change (a :: s ++ w2) with ((a :: s) ++ w2).
    apply rstrip_by_blanks, H2.
Qed.

(** X24.  Blanks before and after a source line never matter: the scanner
    does to a line what it does to the same line without its indentation
    and trailing blanks. *)
Theorem indentation_is_ignored
    (rel : str) (acc : Scanner * PState) (raw w1 w2 : str) :
  blanks w1 -> blanks w2 ->
  scan_line rel acc (w1 ++ raw ++ w2) = scan_line rel acc raw.
Proof.
  intros H1 H2. destruct acc as [sc st]. unfold scan_line.
  unfold strip. rewrite (strip_by_blanks isspace w1 raw w2 H1 H2).
  reflexivity.
Qed.

Lemma indentation_is_ignored_witness :
  scan_line "a.c" (scan_start, new_parser "out")
    "    PARAM_DEFINE_INT32(SYS_ID, 1);  "
  = scan_line "a.c" (scan_start, new_parser "out")
      "PARAM_DEFINE_INT32(SYS_ID, 1);".
Proof.
  exact (indentation_is_ignored "a.c" (scan_start, new_parser "out")
           "PARAM_DEFINE_INT32(SYS_ID, 1);" "    " "  " eq_refl eq_refl).
Defined.

(** ** The log and the document *)

Lemma log_extends_refl st : log_extends st st.
Proof. exists []. rewrite app_nil_r. reflexivity. Qed.

Lemma log_extends_trans a b c :
  log_extends a b -> log_extends b c -> log_extends a c.
Proof.
  intros [l1 H1] [l2 H2]. exists (l1 ++ l2).
  rewrite H2, H1, app_assoc. reflexivity.
Qed.

Lemma log_extends_logged r st : log_extends st (logged r st).
Proof. exists [r]. reflexivity. Qed.

Lemma log_extends_fold {B : Type} (f : PState -> B -> PState) l :
  (forall st x, log_extends st (f st x)) ->
  forall st, log_extends st (fold_left f l st).
Proof.
  intros Hf. induction l as [|x l IH]; intros st; [apply log_extends_refl|].
  cbn. eapply log_extends_trans; [apply Hf | apply IH].
Qed.

Lemma parse_xml_file_log xml_path doc st :
  log_extends st (parse_xml_file xml_path doc st).
Proof.
  unfold parse_xml_file, parse_xml_try. destruct doc as [root|e];
    [|apply log_extends_logged].
  apply log_extends_fold. intros st0 g. unfold parse_xml_group.
  apply log_extends_fold. intros st1 param. unfold _parse_parameter.
  destruct (parse_parameter_body param _) as [[m|]|e].
  - exists [LogDebug ("Parsed parameter from XML: " ++ name m)]. reflexivity.
  - apply log_extends_refl.
  - apply log_extends_logged.
Qed.

Lemma ingest_xml_log repo st : log_extends st (ingest_xml repo st).
Proof.
  unfold ingest_xml. destruct (injected repo); [|apply log_extends_refl].
  eapply log_extends_trans; [apply log_extends_logged|].
  apply parse_xml_file_log.
Qed.

Lemma scan_line_log rel sc st raw :
  log_extends st (snd (scan_line rel (sc, st) raw)).
Proof.
  destruct (is_match re_comment_start (strip raw)) eqn:Eo.
  { rewrite scan_line_open by exact Eo. apply log_extends_refl. }
  destruct (in_comment sc) eqn:Ei.
  { rewrite scan_line_inside by assumption. apply log_extends_refl. }
  destruct (search_groups re_param_define (strip raw)) as [gs|] eqn:Em.
  - rewrite (scan_line_macro rel sc st raw Eo Ei Em). cbn [snd].
    unfold _process_parameter_definition.
    destruct (build_parameter _ _ _ _ _ _).
    + eexists [_]. reflexivity.
    + apply log_extends_logged.
  - rewrite scan_line_other by assumption. apply log_extends_refl.
Qed.

Lemma scan_lines_log rel lines :
  forall sc st, log_extends st (snd (scan_lines rel lines (sc, st))).
Proof.
  induction lines as [|l lines IH]; intros sc st; [apply log_extends_refl|].
  rewrite scan_lines_cons.
  pose proof (scan_line_log rel sc st l) as H.
  destruct (scan_line rel (sc, st) l) as [sc1 st1]. cbn [snd] in H.
  eapply log_extends_trans; [exact H | apply IH].
Qed.

Lemma parse_source_file_log f st : log_extends st (parse_source_file f st).
Proof.
  unfold parse_source_file. destruct (content f);
    [apply scan_lines_log | apply log_extends_logged].
Qed.

Lemma scan_sources_log repo st : log_extends st (scan_sources repo st).
Proof.
  rewrite scan_sources_scanned_files. apply log_extends_fold.
  intros st0 f. apply parse_source_file_log.
Qed.



Lemma param_dict_member_lookup (ps : pydict ParameterMetadata) k :
  dict_get k (map (fun kv => (fst kv, param_dict (snd kv))) ps)
  = option_map param_dict (dict_get k ps).
Proof.
  induction ps as [|[k0 p0] ps IH]; [reflexivity|]. cbn.
  destruct (str_eqb k k0); [reflexivity | exact IH].
Qed.

Lemma keyed_by_name_update kvs :
  Forall (fun kv : str * ParameterMetadata => name (snd kv) = fst kv) kvs ->
  forall d, keyed_by_name d -> keyed_by_name (dict_update kvs d).
Proof.
  intros HF d Hd k p H. apply dict_update_lookup in H.
  destruct H as [Hin|H]; [|exact (Hd k p H)].
  rewrite Forall_forall in HF. exact (HF _ Hin).
Qed.

Lemma parse_all_keyed repo st :
  keyed_by_name (parameters st) ->
  keyed_by_name (parameters (fst (parse_all repo st))).
Proof.
  intros H. unfold parse_all. rewrite save_parameters_parameters.
  rewrite scan_sources_scanned_files.
  destruct (scan_files_entries (scanned_files repo)) as (ks & Fs & Hs).
  rewrite Hs. cbn [logged parameters]. rewrite ingest_xml_assigns.
  cbn [logged parameters].
  apply keyed_by_name_update.
  { eapply Forall_impl; [|exact Fs]. intros kv Hkv.
    exact (proj1 (scanned_entry_provenance kv Hkv)). }
  apply keyed_by_name_update; [|exact H].
  eapply Forall_impl; [|exact (ingest_assignments_ingested repo)].
  intros kv Hkv. exact (proj1 (ingested_entry_provenance kv Hkv)).
Qed.

(** X26.  In the document written, every object says in its [name] member
    the name it is listed under, provided the mapping the pipeline started
    with had every entry under its own name and no name twice. *)
Theorem written_objects_carry_their_key
    (repo : Repository) (st : PState) (members fields : pydict json) (k : str) :
  dict_wf (parameters st) -> keyed_by_name (parameters st) ->
  snd (parse_all repo st) = Some (JObject members) ->
  dict_get k members = Some (JObject fields) ->
  dict_get "name" fields = Some (JStr k).
Proof.
  intros Hwf Hkey Hdoc Hk.
  pose proof (@parse_all_wf repo st Hwf) as Hfin.
  pose proof (parse_all_keyed repo st Hkey) as Hfk.
  assert (Hd : snd (parse_all repo st)
               = Some (params_dict (parameters (fst (parse_all repo st))))
               \/ snd (parse_all repo st) = None).
  { unfold parse_all, save_parameters.
    destruct (write_error repo); [right | left]; reflexivity. }
  destruct Hd as [Hd|Hd]; [|rewrite Hd in Hdoc; discriminate Hdoc].
  rewrite Hd, (params_dict_wf Hfin) in Hdoc. inversion Hdoc. subst members.
  rewrite param_dict_member_lookup in Hk.
  destruct (dict_get k (parameters (fst (parse_all repo st)))) as [p|] eqn:E;
    [|discriminate Hk].
  cbn in Hk. inversion Hk. subst fields.
  rewrite (Hfk k p E). reflexivity.
Qed.

Lemma written_objects_carry_their_key_witness :
  exists members fields,
    snd (parse_all repo_speed (new_parser "out")) = Some (JObject members)
    /\ dict_get "SPD" members = Some (JObject fields)
    /\ dict_get "name" fields = Some (JStr "SPD").
Proof.
  pose (doc := snd (parse_all repo_speed (new_parser "out"))).
  pose (members := match doc with Some (JObject m) => m | _ => [] end).
  pose (fields := match dict_get "SPD" members with
                  | Some (JObject m) => m
                  | _ => []
                  end).
  assert (Hd : snd (parse_all repo_speed (new_parser "out"))
               = Some (JObject members)) by (vm_compute; reflexivity).
  assert (Hk : dict_get "SPD" members = Some (JObject fields))
    by (vm_compute; reflexivity).
  exists members, fields. split; [exact Hd|]. split; [exact Hk|].
  refine (written_objects_carry_their_key repo_speed (new_parser "out")
            members fields "SPD" (NoDup_nil _) _ Hd Hk).
  intros k p H. discriminate H.
Defined.
